(** * The commission engine of the commission tracker ([app.py])

    The repository is a Flask application; its business logic is the
    commission and bonus computation of the [/commission-calculator] view:
    the four helpers [get_commission_rate], [fs_bonus], [life_app_bonus],
    [milestone_bonus] and the arithmetic of [commission_calculator] over the
    sales of one user in one month.

    The embedding keeps the data of the code: applications are counted with
    Python integers ([Z]), premiums, rates and bonuses are Python floats,
    that is IEEE 754 binary64 numbers ([PrimFloat.float], whose operations
    are the hardware ones), categories are strings, the two category groups
    are sets of strings and the bracket tables are dictionaries keyed by
    strings. *)

Set Warnings "-inexact-float".

From Stdlib Require Import ZArith Lia List Bool Floats.
From stdpp Require Import base gmap strings sorting.

Local Open Scope Z_scope.

(** ** The fragment of the Python runtime the engine runs on *)

Module Py.

(** The exceptions of the views: a subscript [d[k]] on a dictionary
    without the key [k], and a commit the database refuses because of a
    constraint on a column. *)
Inductive exn : Type :=
| KeyError (key : string)
| IntegrityError (column : string).

Inductive result (A : Type) : Type :=
| Returns (a : A)
| Raises (e : exn).
Arguments Returns {A} a.
Arguments Raises {A} e.

Definition bind {A B} (r : result A) (k : A -> result B) : result B :=
  match r with
  | Returns a => k a
  | Raises e => Raises e
  end.

(** A number is an [int] or a [float]; [sum] of an empty generator is the
    int [0], [sum] of floats is a float. *)
Inductive num : Type :=
| PyInt (z : Z)
| PyFloat (f : float).

(** [float(z)]: the nearest binary64 number, ties to even.  CPython raises
    [OverflowError] for an int beyond the binary64 range (2^1024 and up);
    here such an int converts to [infinity], as [binary_normalize] does.
    The engine converts counts of records and the literals of its
    thresholds only. *)
Definition float_of_int (z : Z) : float :=
  SF2Prim (binary_normalize prec emax z 0 false).

(** The integer a float is, when it is one: [int(f)] where
    [f.is_integer()], [None] for the other floats. *)
Definition int_value (f : float) : option Z :=
  match Prim2SF f with
  | S754_zero _ => Some 0
  | S754_finite s m e =>
      if 0 <=? e then Some (cond_Zopp s (Zpos m * 2 ^ e))
      else if Zpos m mod 2 ^ (- e) =? 0
           then Some (cond_Zopp s (Zpos m / 2 ^ (- e)))
           else None
  | _ => None
  end.

Definition to_float (x : num) : float :=
  match x with
  | PyInt z => float_of_int z
  | PyFloat f => f
  end.

(** [x >= n] and [x > n] for an int literal [n].  Every literal of the
    engine is a binary64 number, so comparing with [float(n)] is the exact
    comparison CPython makes between a float and an int. *)
Definition ge_int (x : num) (n : Z) : bool :=
  match x with
  | PyInt z => z >=? n
  | PyFloat f => (float_of_int n <=? f)%float
  end.

Definition gt_int (x : num) (n : Z) : bool :=
  match x with
  | PyInt z => z >? n
  | PyFloat f => (float_of_int n <? f)%float
  end.

(** [x or 0] for a nullable float column: [None] and [0.0] are falsy. *)
Definition or_zero (x : option float) : num :=
  match x with
  | None => PyInt 0
  | Some f => if (f =? 0)%float then PyInt 0 else PyFloat f
  end.

(** [d[k]] *)
Definition getitem {V} (d : gmap string V) (k : string) : result V :=
  match d !! k with
  | Some v => Returns v
  | None => Raises (KeyError k)
  end.

(** The builtin [sum].  The language reference fixes the result on ints;
    on floats CPython up to 3.11 adds from left to right, CPython 3.12 and
    later carries Neumaier's compensation term beside the running sum and
    adds it at the end. *)
Inductive sum_algorithm : Type :=
| LeftToRight
| Compensated.

Definition sum_step_float (algo : sum_algorithm) (f_result c x : float)
  : float * float :=
  match algo with
  | LeftToRight => ((f_result + x)%float, c)
  | Compensated =>
      let t := (f_result + x)%float in
      if (abs x <=? abs f_result)%float
      then (t, (c + ((f_result - t) + x))%float)
      else (t, (c + ((x - t) + f_result))%float)
  end.

Definition sum_finish (algo : sum_algorithm) (f_result c : float) : float :=
  match algo with
  | LeftToRight => f_result
  | Compensated =>
      if negb (c =? 0)%float && is_finite c
      then (f_result + c)%float
      else f_result
  end.

(** The loop once the running sum is a float. *)
Fixpoint sum_float (algo : sum_algorithm) (f_result c : float)
  (items : list num) : float :=
  match items with
  | [] => sum_finish algo f_result c
  | PyFloat x :: rest =>
      let '(f', c') := sum_step_float algo f_result c x in
      sum_float algo f' c' rest
  | PyInt z :: rest =>
      sum_float algo (f_result + float_of_int z)%float c rest
  end.

(** The loop while the running sum is an int, starting from [0]. *)
Fixpoint sum_int (algo : sum_algorithm) (i_result : Z)
  (items : list num) : num :=
  match items with
  | [] => PyInt i_result
  | PyInt z :: rest => sum_int algo (i_result + z) rest
  | PyFloat x :: rest =>
      PyFloat (sum_float algo (float_of_int i_result + x)%float 0 rest)
  end.

Definition sum (algo : sum_algorithm) (items : list num) : num :=
  sum_int algo 0 items.

(** [sum(1 for x in xs if p(x))] *)
Definition count {A} (p : A -> bool) (xs : list A) : Z :=
  foldr (fun x n => if p x then 1 + n else n) 0 xs.

End Py.

Import Py.

(** [result] is a monad: [x ← r; k] runs [k] on what [r] returns and
    propagates what it raises. *)
#[export] Instance result_ret : MRet result := @Returns.
#[export] Instance result_bind : MBind result := fun A B k r => Py.bind r k.
#[export] Instance result_fmap : FMap result :=
  fun A B f r => Py.bind r (fun a => Returns (f a)).

(** ** The configuration of [app.py] *)

Definition P_AND_C_CATEGORIES : gset string :=
  {[ "auto"; "homeowners"; "renters"; "plup"; "pap"; "other_fire";
     "bank"; "business" ]}.

Definition FS_CATEGORIES : gset string := {[ "life"; "health" ]}.

Definition CATEGORY_LABELS : list (string * string) :=
  [ ("auto", "Auto");
    ("homeowners", "Homeowners");
    ("renters", "Renters");
    ("plup", "Personal Umbrella");
    ("pap", "Personal Articles");
    ("other_fire", "Other Fire");
    ("life", "Life");
    ("health", "Health");
    ("bank", "Bank");
    ("business", "Business") ].

(** ** The bracket functions *)

Definition get_commission_rate (p_c_apps life_apps : Z) : result float :=
  if p_c_apps <=? 0 then Returns 0%float
  else
    let brackets : gmap string float :=
      if life_apps >=? 5 then
        list_to_map [("1-19", 0.07); ("20-29", 0.09); ("30-39", 0.10);
                     ("40-49", 0.11); ("50+", 0.12)]%float
      else if life_apps =? 4 then
        list_to_map [("1-19", 0.06); ("20-29", 0.08); ("30-39", 0.09);
                     ("40-49", 0.10); ("50+", 0.11)]%float
      else if life_apps =? 3 then
        list_to_map [("1-19", 0.05); ("20-29", 0.07); ("30-39", 0.08);
                     ("40-49", 0.09); ("50+", 0.10)]%float
      else if life_apps =? 2 then
        list_to_map [("1-19", 0.04); ("20-29", 0.06); ("30-39", 0.07);
                     ("40-49", 0.08); ("50+", 0.09)]%float
      else
        list_to_map [("1-19", 0.02); ("20-29", 0.04); ("30-39", 0.05);
                     ("40-49", 0.06); ("50+", 0.07)]%float in
    if p_c_apps >=? 50 then getitem brackets "50+"
    else if p_c_apps >=? 40 then getitem brackets "40-49"
    else if p_c_apps >=? 30 then getitem brackets "30-39"
    else if p_c_apps >=? 20 then getitem brackets "20-29"
    else if p_c_apps >=? 1 then getitem brackets "1-19"
    else Returns 0%float.

Definition fs_bonus (fs_monthly_premium : num) : float :=
  if ge_int fs_monthly_premium 500 then 800%float
  else if ge_int fs_monthly_premium 400 then 600%float
  else if ge_int fs_monthly_premium 300 then 400%float
  else if ge_int fs_monthly_premium 200 then 200%float
  else 0%float.

Definition life_app_bonus (life_apps : Z) : float :=
  if life_apps <? 6 then 0%float
  else
    let bonus := 500%float in
    let bonus :=
      if life_apps >? 6
      then (bonus + float_of_int (life_apps - 6) * 150)%float
      else bonus in
    bonus.

Definition milestone_bonus (p_c_apps life_apps : Z) : float :=
  if (p_c_apps >=? 30) && (life_apps >=? 4) then 1000%float
  else if (p_c_apps >=? 25) && (life_apps >=? 3) then 750%float
  else if (p_c_apps >=? 20) && (life_apps >=? 2) then 500%float
  else 0%float.

(** ** Sales and the compensation breakdown *)

(** A row of the [sale] table.  Dates are kept as (year, month, day). *)
Record Sale : Type := mkSale {
  id : Z;
  user_id : Z;
  client_name : string;
  date_sold : Z * Z * Z;
  date_effective : Z * Z * Z;
  category : string;
  premium : float;
  fs_monthly_premium : option float
}.

(** The figures [commission_calculator] hands to its template. *)
Record Breakdown : Type := mkBreakdown {
  p_c_premium : num;
  p_c_apps : Z;
  life_apps : Z;
  fs_monthly_total : num;
  commission_rate : float;
  commission_amount : float;
  commission_eligible : bool;
  fs_monthly_bonus : float;
  fs_high_bonus : float;
  life_bonus_amount : float;
  milestone_bonus_amount : float;
  total_bonus : float;
  total_compensation : float
}.

Definition in_p_and_c (sale : Sale) : bool :=
  bool_decide (category sale ∈ P_AND_C_CATEGORIES).

Definition in_fs (sale : Sale) : bool :=
  bool_decide (category sale ∈ FS_CATEGORIES).

Definition is_life (sale : Sale) : bool :=
  bool_decide (category sale = "life").

Section Engine.

(** The interpreter's [sum] on floats. *)
Variable algo : sum_algorithm.

(** The second half of [commission_calculator]: from the four aggregates to
    the figures. *)
Definition breakdown_of (p_c_premium : num) (p_c_apps life_apps : Z)
  (fs_monthly_total : num) : result Breakdown :=
  commission_rate ← get_commission_rate p_c_apps life_apps;
  let commission_amount :=
    if ge_int p_c_premium 12000
    then (to_float p_c_premium * commission_rate)%float
    else 0%float in
  let commission_eligible := ge_int p_c_premium 12000 in
  let fs_monthly_bonus := fs_bonus fs_monthly_total in
  let fs_high_bonus :=
    if gt_int fs_monthly_total 1000 then 1000%float else 0%float in
  let life_bonus_amount := life_app_bonus life_apps in
  let milestone_bonus_amount := milestone_bonus p_c_apps life_apps in
  let total_bonus :=
    (fs_monthly_bonus + fs_high_bonus + life_bonus_amount
     + milestone_bonus_amount)%float in
  let total_compensation := (commission_amount + total_bonus)%float in
  mret {| p_c_premium := p_c_premium;
          p_c_apps := p_c_apps;
          life_apps := life_apps;
          fs_monthly_total := fs_monthly_total;
          commission_rate := commission_rate;
          commission_amount := commission_amount;
          commission_eligible := commission_eligible;
          fs_monthly_bonus := fs_monthly_bonus;
          fs_high_bonus := fs_high_bonus;
          life_bonus_amount := life_bonus_amount;
          milestone_bonus_amount := milestone_bonus_amount;
          total_bonus := total_bonus;
          total_compensation := total_compensation |}.

(** [commission_calculator] on [sales], the rows its query returned for the
    current user and the target month. *)
Definition commission_calculator (sales : list Sale) : result Breakdown :=
  let p_c_premium :=
    Py.sum algo ((fun sale => PyFloat (premium sale))
                   <$> List.filter in_p_and_c sales) in
  let p_c_apps := Py.count in_p_and_c sales in
  let life_apps := Py.count is_life sales in
  let fs_monthly_total :=
    Py.sum algo ((fun sale => or_zero (fs_monthly_premium sale))
                   <$> List.filter in_fs sales) in
  breakdown_of p_c_premium p_c_apps life_apps fs_monthly_total.

End Engine.

(** ** The rate table as the specification words it *)

Inductive life_row : Type := RowA | RowB | RowC | RowD | RowE.

Inductive pc_column : Type :=
| NoApps | Apps1to19 | Apps20to29 | Apps30to39 | Apps40to49 | Apps50plus.

(** Life applications: below 2 row A, 2 row B, 3 row C, 4 row D, 5 and up
    row E. *)
Definition life_row_of (life_apps : Z) : life_row :=
  if life_apps <? 2 then RowA
  else if life_apps =? 2 then RowB
  else if life_apps =? 3 then RowC
  else if life_apps =? 4 then RowD
  else RowE.

(** P&C applications: below 1, 1-19, 20-29, 30-39, 40-49, 50 and up. *)
Definition pc_column_of (pc_apps : Z) : pc_column :=
  if pc_apps <? 1 then NoApps
  else if pc_apps <=? 19 then Apps1to19
  else if pc_apps <=? 29 then Apps20to29
  else if pc_apps <=? 39 then Apps30to39
  else if pc_apps <=? 49 then Apps40to49
  else Apps50plus.

(** Rows A to E by the five columns; no P&C application gives 0 in every
    row. *)
Definition rate_table (row : life_row) (col : pc_column) : float :=
  match col, row with
  | NoApps, _ => 0
  | Apps1to19, RowA => 0.02 | Apps20to29, RowA => 0.04
  | Apps30to39, RowA => 0.05 | Apps40to49, RowA => 0.06
  | Apps50plus, RowA => 0.07
  | Apps1to19, RowB => 0.04 | Apps20to29, RowB => 0.06
  | Apps30to39, RowB => 0.07 | Apps40to49, RowB => 0.08
  | Apps50plus, RowB => 0.09
  | Apps1to19, RowC => 0.05 | Apps20to29, RowC => 0.07
  | Apps30to39, RowC => 0.08 | Apps40to49, RowC => 0.09
  | Apps50plus, RowC => 0.10
  | Apps1to19, RowD => 0.06 | Apps20to29, RowD => 0.08
  | Apps30to39, RowD => 0.09 | Apps40to49, RowD => 0.10
  | Apps50plus, RowD => 0.11
  | Apps1to19, RowE => 0.07 | Apps20to29, RowE => 0.09
  | Apps30to39, RowE => 0.10 | Apps40to49, RowE => 0.11
  | Apps50plus, RowE => 0.12
  end%float.

Definition spec_commission_rate (pc_apps life_apps : Z) : float :=
  rate_table (life_row_of life_apps) (pc_column_of pc_apps).

(** Position of a row and of a column in the table. *)
Definition row_index (row : life_row) : Z :=
  match row with RowA => 0 | RowB => 1 | RowC => 2 | RowD => 3 | RowE => 4 end.

Definition column_index (col : pc_column) : Z :=
  match col with
  | NoApps => 0 | Apps1to19 => 1 | Apps20to29 => 2
  | Apps30to39 => 3 | Apps40to49 => 4 | Apps50plus => 5
  end.

(** [r <= r'] on what two calls return. *)
Definition returns_le (r r' : result float) : Prop :=
  match r, r' with
  | Returns a, Returns b => (a <=? b)%float = true
  | _, _ => False
  end.


(** ** Sample rows *)

Definition sale_in (cat : string) (amount : float) (monthly : option float)
  : Sale :=
  {| id := 1; user_id := 1; client_name := "Ada";
     date_sold := (2024, 5, 14); date_effective := (2024, 6, 1);
     category := cat; premium := amount; fs_monthly_premium := monthly |}.

(** What the calculator shows for a month without sales. *)
Definition empty_breakdown : Breakdown :=
  {| p_c_premium := PyInt 0;
     p_c_apps := 0;
     life_apps := 0;
     fs_monthly_total := PyInt 0;
     commission_rate := 0;
     commission_amount := 0;
     commission_eligible := false;
     fs_monthly_bonus := 0;
     fs_high_bonus := 0;
     life_bonus_amount := 0;
     milestone_bonus_amount := 0;
     total_bonus := 0;
     total_compensation := 0 |}.

(** ** Validation at data entry *)

(** [add_sale] rejects a form whose category is not a key of
    [dict(CATEGORY_LABELS)]; the calculator itself makes no such test. *)
Definition category_labels_map : gmap string string :=
  list_to_map CATEGORY_LABELS.

Definition valid_category (c : string) : bool :=
  bool_decide (is_Some (category_labels_map !! c)).

Definition has_valid_category (sale : Sale) : bool :=
  valid_category (category sale).

(** ** What the engine reads of a sale *)

(** The category, the premium when the category is a P&C one, the monthly
    premium column when it is a financial-services one. *)
Definition engine_view (sale : Sale)
  : string * option float * option (option float) :=
  (category sale,
   if in_p_and_c sale then Some (premium sale) else None,
   if in_fs sale then Some (fs_monthly_premium sale) else None).

(** Four P&C sales of one month, and the same four in the opposite order:
    2^53, 1 and twice 2^-53. *)
Definition wide_sales : list Sale :=
  [ sale_in "auto" 0x1p53 None; sale_in "auto" 1 None;
    sale_in "auto" 0x1p-53 None; sale_in "auto" 0x1p-53 None ].

Definition wide_sales_reversed : list Sale := rev wide_sales.

(** Three P&C sales in cents that add up to 12000, in two orders. *)
Definition cents_sales : list Sale :=
  [ sale_in "auto" 0.05 None; sale_in "renters" 0.05 None;
    sale_in "homeowners" 11999.9 None ].

Definition cents_sales_reversed : list Sale := rev cents_sales.

(** A row whose category no form of the application offers. *)
Definition boat_sale : Sale := sale_in "boat" 50000 (Some 700%float).


(** ** Integers as binary64 numbers *)

(** [p * 2^n] for [n >= 0], as the mantissa alignment of the IEEE
    operations computes it. *)
Definition shl (p : positive) (n : Z) : positive :=
  match n with
  | Zpos k => Pos.iter xO p k
  | _ => p
  end.

(** Number of bits of [p]. *)
Definition digits (p : positive) : Z := Zpos (digits2_pos p).

(** The binary64 number of a positive integer of at most 53 bits: the
    mantissa is the integer shifted to 53 bits. *)
Definition canon (q : positive) : spec_float :=
  S754_finite false (shl q (53 - digits q)) (digits q - 53).

(** ** The month of the calculator *)

(** [calendar.isleap] and the number of days of a month. *)
Definition is_leap (year : Z) : bool :=
  (year mod 4 =? 0) && (negb (year mod 100 =? 0) || (year mod 400 =? 0)).

Definition days_in_month (year month : Z) : Z :=
  if month =? 2 then (if is_leap year then 29 else 28)
  else if (month =? 4) || (month =? 6) || (month =? 9) || (month =? 11)
       then 30
       else 31.

(** A [date] whose fields are in range. *)
Definition valid_date (d : Z * Z * Z) : Prop :=
  let '(year, month, day) := d in
  1 <= year <= 9999 /\ 1 <= month <= 12
  /\ 1 <= day <= days_in_month year month.

(** [d + relativedelta(months=1)]: the month moves on, the year with it
    after December, the day is cut to the length of the new month;
    [date.replace] raises [ValueError] beyond the year 9999 ([None]). *)
Definition plus_one_month (d : Z * Z * Z) : option (Z * Z * Z) :=
  let '(year, month, day) := d in
  let month := month + 1 in
  let '(year, month) :=
    if month >? 12 then (year + 1, month - 12) else (year, month) in
  let day := Z.min (days_in_month year month) day in
  if year >? 9999 then None else Some (year, month, day).

(** [d - relativedelta(days=1)], that is [d + timedelta(days=-1)], for a
    date after 0001-01-01: the day before. *)
Definition minus_one_day (d : Z * Z * Z) : Z * Z * Z :=
  let '(year, month, day) := d in
  if day >? 1 then (year, month, day - 1)
  else if month >? 1 then (year, month - 1, days_in_month year (month - 1))
  else (year - 1, 12, 31).

(** [d1 <= d2] on dates. *)
Definition date_le (d1 d2 : Z * Z * Z) : bool :=
  let '(y1, m1, day1) := d1 in
  let '(y2, m2, day2) := d2 in
  (y1 <? y2) || ((y1 =? y2) && ((m1 <? m2) || ((m1 =? m2) && (day1 <=? day2)))).

(** [start_of_month] and [end_of_month] for the target month. *)
Definition month_window (year month : Z)
  : option ((Z * Z * Z) * (Z * Z * Z)) :=
  let start_of_month := (year, month, 1) in
  next ← plus_one_month start_of_month;
  Some (start_of_month, minus_one_day next).

(** The filters of the calculator's query. *)
Definition in_window (current_user : Z)
  (window : (Z * Z * Z) * (Z * Z * Z)) (sale : Sale) : bool :=
  let '(start_of_month, end_of_month) := window in
  (user_id sale =? current_user)
  && date_le start_of_month (date_sold sale)
  && date_le (date_sold sale) end_of_month.

(** The query has no [order_by]: [rows] is what [.all()] may return on
    [table], the selected rows in some order. *)
Definition query_returns (table : list Sale) (p : Sale -> bool)
  (rows : list Sale) : Prop :=
  rows ≡ₚ List.filter p table.

(** The sales of [current_user] sold in the month [month] of [year]. *)
Definition sold_in (current_user year month : Z) (sale : Sale) : bool :=
  let '(y, m, _) := date_sold sale in
  (user_id sale =? current_user) && (y =? year) && (m =? month).

(** ** Entering a sale *)

(** The fields of the form posted to [/enter-sale]; [None] is a field the
    request does not carry. *)
Record SaleForm : Type := mkSaleForm {
  form_client_name : option string;
  form_date_sold : option string;
  form_date_effective : option string;
  form_category : option string;
  form_premium : option string;
  form_fs_monthly_premium : option string
}.

(** Truth value of [request.form.get(...)]: [None] and the empty string
    are falsy. *)
Definition nonempty (s : string) : bool := negb (bool_decide (s = "")).

Definition truthy (field : option string) : bool :=
  match field with
  | Some s => nonempty s
  | None => false
  end.

(** The primary key SQLite gives a new row: one more than the largest in
    use. *)
Definition next_id (table : list Sale) : Z :=
  1 + foldr Z.max 0 (id <$> table).

(** What a nullable [Float] column holds after a commit. *)
Definition stored_real (x : option float) : option float :=
  match x with
  | Some f => if is_nan f then None else Some f
  | None => None
  end.

(** The response of [enter_sale] to a form it accepts. *)
Definition sale_recorded : result (string * (string * string)) :=
  Returns ("my_sales", ("Sale recorded successfully!", "success")).

Section EnterSale.

(** The library functions the view calls on the raw fields: [str.strip],
    [datetime.strptime(_, "%Y-%m-%d").date()] and [float], the last two
    with [None] for [ValueError]. *)
Variable strip : string -> string.
Variable strptime_ymd : string -> option (Z * Z * Z).
Variable float_of_string : string -> option float.

(** [enter_sale] on a POST by [current_user]: where it redirects to and
    what it flashes (message, category), or the exception of the commit,
    and the table afterwards.  SQLite keeps no NaN: the commit stores NULL
    in its place, which the column [premium] refuses ([nullable=False]) and
    the column [fs_monthly_premium] accepts. *)
Definition enter_sale (current_user : Z) (form : SaleForm)
  (table : list Sale)
  : result (string * (string * string)) * list Sale :=
  let client_name := strip (default "" (form_client_name form)) in
  if negb (nonempty client_name)
     || negb (truthy (form_date_sold form))
     || negb (truthy (form_date_effective form))
     || negb (truthy (form_premium form))
  then (Returns
          ("enter_sale",
           ("All fields except FS Monthly Premium are required.", "danger")),
        table)
  else
    let parsed :=
      date_sold ← form_date_sold form ≫= strptime_ymd;
      date_effective ← form_date_effective form ≫= strptime_ymd;
      premium ← form_premium form ≫= float_of_string;
      fs_monthly_premium ←
        (if truthy (form_fs_monthly_premium form)
         then Some <$> (form_fs_monthly_premium form ≫= float_of_string)
         else Some None);
      Some (date_sold, date_effective, premium, fs_monthly_premium) in
    match parsed with
    | None =>
        (Returns
           ("enter_sale", ("Please enter valid numbers and dates.", "danger")),
         table)
    | Some (date_sold, date_effective, premium, fs_monthly_premium) =>
        match form_category form with
        | Some category =>
            if valid_category category
            then
              if is_nan premium
              then (Raises (IntegrityError "sale.premium"), table)
              else
                let sale :=
                  {| id := next_id table;
                     user_id := current_user;
                     client_name := client_name;
                     date_sold := date_sold;
                     date_effective := date_effective;
                     category := category;
                     premium := premium;
                     fs_monthly_premium := stored_real fs_monthly_premium |}
                in
                (Returns
                   ("my_sales", ("Sale recorded successfully!", "success")),
                 table ++ [sale])
            else
              (Returns
                 ("enter_sale",
                  ("Please choose a valid category.", "danger")),
               table)
        | None =>
            (Returns
               ("enter_sale", ("Please choose a valid category.", "danger")),
             table)
        end
    end.

(** The tables the forms can build: from the empty table, one POST of some
    user after the other. *)
Inductive entered : list Sale -> Prop :=
| entered_nil : entered []
| entered_post (table : list Sale) (current_user : Z) (form : SaleForm) :
    entered table ->
    entered (snd (enter_sale current_user form table)).

End EnterSale.

(** What every stored sale satisfies: a category of the enumeration, a
    client name, dates in range, a positive key; the keys are distinct. *)
Definition well_entered (table : list Sale) : Prop :=
  Forall (fun sale =>
            has_valid_category sale = true
            /\ client_name sale <> ""
            /\ valid_date (date_sold sale)
            /\ valid_date (date_effective sale)
            /\ 0 < id sale < next_id table) table
  /\ NoDup (id <$> table).

(** A form, and parsers that read its fields, for examples. *)
Definition sample_strptime (s : string) : option (Z * Z * Z) :=
  if bool_decide (s = "2024-05-14") then Some (2024, 5, 14) else None.

Definition sample_float (s : string) : option float :=
  if bool_decide (s = "700") then Some 700%float else None.

Definition sample_form : SaleForm :=
  {| form_client_name := Some "Ada";
     form_date_sold := Some "2024-05-14";
     form_date_effective := Some "2024-05-14";
     form_category := Some "renters";
     form_premium := Some "700";
     form_fs_monthly_premium := Some "" |}.

Definition sample_table : list Sale :=
  snd (enter_sale (fun s => s) sample_strptime sample_float 1 sample_form []).

(** ** The team chart *)

(** A dictionary whose order of insertion shows (its keys are listed, its
    values are listed): the entries in that order, one per key. *)
Definition odict (K : Type) : Type := list (K * num).

(** [d[k] += x] on a key of [d]; the int [0] of a fresh entry becomes a
    float with the first premium. *)
Definition odict_add {K} `{EqDecision K} (k : K) (x : float) (d : odict K)
  : odict K :=
  (fun entry : K * num =>
     if decide (entry.1 = k)
     then (entry.1, PyFloat (to_float entry.2 + x))
     else entry) <$> d.

(** [d.setdefault(k, 0)] *)
Definition odict_setdefault {K} `{EqDecision K} (k : K) (d : odict K)
  : odict K :=
  if decide (k ∈ d.*1) then d else d ++ [(k, PyInt 0)].

(** [{label: 0 for _, label in CATEGORY_LABELS}] *)
Definition initial_category_totals : odict string :=
  (fun entry : string * string => (entry.2, PyInt 0)) <$> CATEGORY_LABELS.

(** [d.replace(day=1)] *)
Definition first_of_month (d : Z * Z * Z) : Z * Z * Z :=
  let '(year, month, _) := d in (year, month, 1).

(** The loop of [team_sales] over the rows of its query, from the totals
    so far. *)
Fixpoint team_totals (sales : list Sale)
  (category_totals : odict string) (monthly_totals : odict (Z * Z * Z))
  : result (odict string * odict (Z * Z * Z)) :=
  match sales with
  | [] => Returns (category_totals, monthly_totals)
  | sale :: rest =>
      category_label ← getitem category_labels_map (category sale);
      let category_totals :=
        odict_add category_label (premium sale) category_totals in
      let month_key := first_of_month (date_sold sale) in
      let monthly_totals := odict_setdefault month_key monthly_totals in
      let monthly_totals :=
        odict_add month_key (premium sale) monthly_totals in
      team_totals rest category_totals monthly_totals
  end.

(** [sorted] on dates, by insertion. *)
Fixpoint insert_date (d : Z * Z * Z) (l : list (Z * Z * Z))
  : list (Z * Z * Z) :=
  match l with
  | [] => [d]
  | d' :: rest =>
      if date_le d d' then d :: l else d' :: insert_date d rest
  end.

Definition sorted_dates (l : list (Z * Z * Z)) : list (Z * Z * Z) :=
  foldr insert_date [] l.

(** What [team_sales] charts, before the values are rounded for display:
    the category labels with their totals, the months in ascending order
    with theirs. *)
Definition team_sales_chart (sales : list Sale)
  : result (odict string * list (Z * Z * Z) * odict (Z * Z * Z)) :=
  totals ← team_totals sales initial_category_totals [];
  let '(category_totals, monthly_totals) := totals in
  Returns (category_totals, sorted_dates monthly_totals.*1, monthly_totals).

(** One day before another. *)
Definition date_lt (d1 d2 : Z * Z * Z) : Prop :=
  date_le d1 d2 = true /\ d1 <> d2.

(** The premiums of the sales of category [c], added from left to right
    in the order of the rows. *)
Definition category_total (c : string) (sales : list Sale) : num :=
  Py.sum LeftToRight
    ((fun sale => PyFloat (premium sale))
       <$> List.filter (fun sale => bool_decide (category sale = c)) sales).

(** The premiums of the sales sold in the month that starts on [m], added
    from left to right in the order of the rows. *)
Definition month_total (m : Z * Z * Z) (sales : list Sale) : num :=
  Py.sum LeftToRight
    ((fun sale => PyFloat (premium sale))
       <$> List.filter
             (fun sale => bool_decide (first_of_month (date_sold sale) = m))
             sales).

(** The months of the rows. *)
Definition month_keys (sales : list Sale) : list (Z * Z * Z) :=
  (fun sale => first_of_month (date_sold sale)) <$> sales.

(** The monthly totals once the rows [done] have been read. *)
Definition monthly_totals_of (done : list Sale) (mt : odict (Z * Z * Z))
  : Prop :=
  Forall (fun entry : (Z * Z * Z) * num =>
            entry.2 = month_total entry.1 done) mt
  /\ forall m : Z * Z * Z, m ∈ month_keys done -> m ∈ mt.*1.

(** The chart of three sales of May 2024. *)
Definition team_sales_chart_sample
  : odict string * list (Z * Z * Z) * odict (Z * Z * Z) :=
  match team_sales_chart cents_sales with
  | Returns chart => chart
  | Raises _ => ([], [], [])
  end.

(** * Properties *)

(** Case analysis on the integer comparisons of a goal. *)
Ltac split_comparison :=
  match goal with
  | |- context [?x <=? ?y] => case (Z.leb_spec x y); intro
  | |- context [?x <? ?y] => case (Z.ltb_spec x y); intro
  | |- context [?x =? ?y] => case (Z.eqb_spec x y); intro
  end.

Ltac cases_on_comparisons :=
  rewrite ?Z.geb_leb, ?Z.gtb_ltb; repeat split_comparison.

(** ** The commission rate *)

Lemma get_commission_rate_table (p_c_apps life_apps : Z) :
  get_commission_rate p_c_apps life_apps
  = Returns (spec_commission_rate p_c_apps life_apps).
Proof.
  unfold get_commission_rate, spec_commission_rate, life_row_of, pc_column_of.
  cases_on_comparisons; try lia; vm_compute; reflexivity.
Qed.

(** C1. For every pair of integers, so for every pair of non-negative ones,
    [get_commission_rate] returns (and raises no [KeyError]) the entry of the
    specification's table: the row chosen by the life applications (below 2,
    2, 3, 4, 5 and up), the column by the P&C applications (below 1 gives 0
    whatever the row; 1-19, 20-29, 30-39, 40-49, 50 and up). *)
Theorem get_commission_rate_matches_table :
  forall p_c_apps life_apps : Z,
    get_commission_rate p_c_apps life_apps
    = Returns (rate_table (life_row_of life_apps) (pc_column_of p_c_apps)).
Proof. exact get_commission_rate_table. Qed.

Lemma life_row_of_mono (l l' : Z) :
  l <= l' -> row_index (life_row_of l) <= row_index (life_row_of l').
Proof.
  intros Hle. unfold life_row_of.
  cases_on_comparisons; simpl; lia.
Qed.

Lemma pc_column_of_mono (p p' : Z) :
  p <= p' -> column_index (pc_column_of p) <= column_index (pc_column_of p').
Proof.
  intros Hle. unfold pc_column_of.
  cases_on_comparisons; simpl; lia.
Qed.

Lemma rate_table_mono (row row' : life_row) (col col' : pc_column) :
  row_index row <= row_index row' ->
  column_index col <= column_index col' ->
  (rate_table row col <=? rate_table row' col')%float = true.
Proof.
  destruct row, row', col, col'; simpl; intros Hr Hc;
    try lia; vm_compute; reflexivity.
Qed.

(** C6. More applications never lower the rate: [get_commission_rate] is
    non-decreasing in the P&C applications for fixed life applications, and
    in the life applications for fixed P&C applications (over all integers,
    the non-negative ones among them). *)
Theorem get_commission_rate_monotone :
  (forall p_c_apps p_c_apps' life_apps : Z,
      p_c_apps <= p_c_apps' ->
      returns_le (get_commission_rate p_c_apps life_apps)
                 (get_commission_rate p_c_apps' life_apps))
  /\ (forall p_c_apps life_apps life_apps' : Z,
         life_apps <= life_apps' ->
         returns_le (get_commission_rate p_c_apps life_apps)
                    (get_commission_rate p_c_apps life_apps')).
Proof.
  split; intros; rewrite !get_commission_rate_table; simpl;
    apply rate_table_mono;
    auto using life_row_of_mono, pc_column_of_mono; lia.
Qed.

Lemma get_commission_rate_monotone_witness :
  returns_le (get_commission_rate 19 3) (get_commission_rate 20 3)
  /\ returns_le (get_commission_rate 35 1) (get_commission_rate 35 2).
Proof.
  split.
  - apply (proj1 get_commission_rate_monotone 19 20 3). lia.
  - apply (proj2 get_commission_rate_monotone 35 1 2). lia.
Defined.

(** ** The engine returns *)

Lemma breakdown_of_returns (pcp : num) (pca la : Z) (fs : num) :
  exists b : Breakdown,
    breakdown_of pcp pca la fs = Returns b
    /\ p_c_premium b = pcp /\ p_c_apps b = pca /\ life_apps b = la
    /\ fs_monthly_total b = fs
    /\ commission_rate b = spec_commission_rate pca la
    /\ commission_amount b
       = (if ge_int pcp 12000
          then (to_float pcp * spec_commission_rate pca la)%float
          else 0%float)
    /\ commission_eligible b = ge_int pcp 12000
    /\ fs_monthly_bonus b = fs_bonus fs
    /\ fs_high_bonus b = (if gt_int fs 1000 then 1000%float else 0%float)
    /\ life_bonus_amount b = life_app_bonus la
    /\ milestone_bonus_amount b = milestone_bonus pca la.
Proof.
  unfold breakdown_of. rewrite get_commission_rate_table.
  eexists. split; [reflexivity|]. simpl. repeat split; reflexivity.
Qed.

Lemma commission_calculator_returns (algo : sum_algorithm) (sales : list Sale) :
  exists b : Breakdown, commission_calculator algo sales = Returns b.
Proof.
  unfold commission_calculator.
  destruct (breakdown_of_returns
              (Py.sum algo ((fun sale => PyFloat (premium sale))
                              <$> List.filter in_p_and_c sales))
              (Py.count in_p_and_c sales) (Py.count is_life sales)
              (Py.sum algo ((fun sale => or_zero (fs_monthly_premium sale))
                              <$> List.filter in_fs sales)))
    as (b & Hb & _).
  exists b. exact Hb.
Qed.

(** ** Commission eligibility *)

(** C2. For every list of sales the engine returns a breakdown whose rate is
    the one looked up for the two counts, whatever the premium; with a P&C
    premium of at least 12000 the commission is premium times rate and the
    eligibility flag is set; below, the commission is 0 and the flag is
    cleared.  One P&C sale of 5000 shows a rate above 0 beside a commission
    of 0. *)
Theorem commission_requires_12000 :
  (forall (algo : sum_algorithm) (sales : list Sale),
      exists b : Breakdown,
        commission_calculator algo sales = Returns b
        /\ p_c_premium b
           = Py.sum algo ((fun sale => PyFloat (premium sale))
                            <$> List.filter in_p_and_c sales)
        /\ get_commission_rate (p_c_apps b) (life_apps b)
           = Returns (commission_rate b)
        /\ (ge_int (p_c_premium b) 12000 = true ->
            commission_amount b
            = (to_float (p_c_premium b) * commission_rate b)%float
            /\ commission_eligible b = true)
        /\ (ge_int (p_c_premium b) 12000 = false ->
            commission_amount b = 0%float
            /\ commission_eligible b = false))
  /\ (forall algo : sum_algorithm,
         exists b : Breakdown,
           commission_calculator algo [sale_in "auto" 5000 None] = Returns b
           /\ (0 <? commission_rate b)%float = true
           /\ commission_amount b = 0%float
           /\ commission_eligible b = false).
Proof.
  split.
  - intros algo sales. unfold commission_calculator.
    match goal with
    | |- context [breakdown_of ?a ?b ?c ?d] =>
        destruct (breakdown_of_returns a b c d)
          as (r & Hr & Hp & Ha & Hl & _ & Hrate & Hamt & Hel & _)
    end.
    exists r. rewrite Hr, Ha, Hl, Hrate, Hamt, Hel, Hp.
    rewrite get_commission_rate_table.
    repeat split; try reflexivity;
      match goal with H : ge_int _ _ = _ |- _ => rewrite H end; reflexivity.
  - intros algo. eexists. split.
    + destruct algo; vm_compute; reflexivity.
    + repeat split; reflexivity.
Qed.

(** ** Financial-services bonuses *)

(** Order between a float and two int literals, read off the IEEE
    specification of the comparisons. *)
Ltac literal_to_spec n :=
  let v := eval vm_compute in (Prim2SF (float_of_int n)) in
  replace (Prim2SF (float_of_int n)) with v by (vm_compute; reflexivity).

Ltac compare_with_literals n1 n2 :=
  rewrite ?ltb_spec, ?leb_spec;
  literal_to_spec n1; literal_to_spec n2;
  unfold SFltb, SFleb, SFcompare;
  match goal with
  | |- context [Prim2SF ?f] =>
      destruct (Prim2SF f) as [s|s| |s m e];
      try destruct s; try discriminate; try reflexivity
  end;
  change (Pos.compare_cont Eq) with Pos.compare;
  repeat match goal with
    | |- context [Z.compare ?a ?b] => destruct (Z.compare_spec a b)
    end;
  try (exfalso; lia);
  repeat match goal with
    | |- context [Pos.compare ?a ?b] => destruct (Pos.compare_spec a b)
    end;
  try discriminate; try reflexivity;
  try (exfalso; subst;
       try match goal with
         | H : (?a < ?b)%positive, H' : (?b < ?c)%positive |- _ =>
             pose proof (Pos.lt_trans _ _ _ H H'); clear H H'
         end;
       match goal with
       | H : (_ < _)%positive |- _ => vm_compute in H; discriminate
       | H : @eq positive _ _ |- _ => discriminate
       end).

Lemma thresholds_descend (x : num) :
  (gt_int x 1000 = true -> ge_int x 500 = true)
  /\ (ge_int x 500 = true -> ge_int x 400 = true)
  /\ (ge_int x 400 = true -> ge_int x 300 = true)
  /\ (ge_int x 300 = true -> ge_int x 200 = true).
Proof.
  destruct x as [z|f]; simpl.
  - rewrite Z.gtb_ltb, !Z.geb_leb, Z.ltb_lt, !Z.leb_le. lia.
  - repeat split.
    + compare_with_literals 1000 500.
    + compare_with_literals 500 400.
    + compare_with_literals 400 300.
    + compare_with_literals 300 200.
Qed.

(** C3. For every monthly total (the non-negative ones among them) the
    tiered bonus is the first matching step from the top: 800 from 500, else
    600 from 400, else 400 from 300, else 200 from 200, else 0; the flat
    bonus is 1000 exactly above 1000; both enter the total bonus, so every
    total above 1000 earns 800 and 1000 together, and a monthly premium of
    1200 gives a total bonus of 1800. *)
Theorem fs_bonuses_stack :
  (forall (pcp : num) (pca la : Z) (fs : num),
      exists b : Breakdown,
        breakdown_of pcp pca la fs = Returns b
        /\ fs_monthly_total b = fs
        /\ (ge_int fs 500 = true -> fs_monthly_bonus b = 800%float)
        /\ (ge_int fs 500 = false -> ge_int fs 400 = true ->
            fs_monthly_bonus b = 600%float)
        /\ (ge_int fs 400 = false -> ge_int fs 300 = true ->
            fs_monthly_bonus b = 400%float)
        /\ (ge_int fs 300 = false -> ge_int fs 200 = true ->
            fs_monthly_bonus b = 200%float)
        /\ (ge_int fs 200 = false -> fs_monthly_bonus b = 0%float)
        /\ (gt_int fs 1000 = true -> fs_high_bonus b = 1000%float)
        /\ (gt_int fs 1000 = false -> fs_high_bonus b = 0%float)
        /\ (gt_int fs 1000 = true ->
            fs_monthly_bonus b = 800%float /\ fs_high_bonus b = 1000%float)
        /\ total_bonus b
           = (fs_monthly_bonus b + fs_high_bonus b + life_bonus_amount b
              + milestone_bonus_amount b)%float)
  /\ (forall algo : sum_algorithm,
         exists b : Breakdown,
           commission_calculator algo [sale_in "health" 350 (Some 1200%float)]
           = Returns b
           /\ fs_monthly_total b = PyFloat 1200
           /\ fs_monthly_bonus b = 800%float
           /\ fs_high_bonus b = 1000%float
           /\ total_bonus b = 1800%float).
Proof.
  split.
  - intros pcp pca la fs.
    destruct (thresholds_descend fs) as (H1000 & H500 & H400 & H300).
    unfold breakdown_of. rewrite get_commission_rate_table.
    eexists. split; [reflexivity|]. simpl. unfold fs_bonus.
    destruct (ge_int fs 500), (ge_int fs 400), (ge_int fs 300),
      (ge_int fs 200), (gt_int fs 1000);
      repeat split; intros; try reflexivity; try discriminate;
      repeat match goal with
        | H : true = true -> _ |- _ => specialize (H eq_refl)
        end;
      match goal with H : false = true |- _ => discriminate H end.
  - intros algo. eexists. split.
    + destruct algo; vm_compute; reflexivity.
    + repeat split; reflexivity.
Qed.

(** ** Milestone bonus *)

Lemma milestone_rule_iff (a b p l : Z) :
  (p >=? a) && (l >=? b) = true <-> a <= p /\ b <= l.
Proof. rewrite andb_true_iff, !Z.geb_leb, !Z.leb_le. tauto. Qed.

(** C4. The milestone bonus is the first rule that matches, from the most
    demanding: 1000 from 30 P&C and 4 life applications, else 750 from 25
    and 3, else 500 from 20 and 2, else 0.  It is one of 0, 500, 750 and
    1000, never a sum of two tiers: 32 P&C and 4 life applications meet all
    three rules and earn 1000. *)
Theorem milestone_bonus_first_match :
  forall p_c_apps life_apps : Z,
    (30 <= p_c_apps /\ 4 <= life_apps ->
     milestone_bonus p_c_apps life_apps = 1000%float)
    /\ (~ (30 <= p_c_apps /\ 4 <= life_apps) ->
        25 <= p_c_apps /\ 3 <= life_apps ->
        milestone_bonus p_c_apps life_apps = 750%float)
    /\ (~ (30 <= p_c_apps /\ 4 <= life_apps) ->
        ~ (25 <= p_c_apps /\ 3 <= life_apps) ->
        20 <= p_c_apps /\ 2 <= life_apps ->
        milestone_bonus p_c_apps life_apps = 500%float)
    /\ (~ (30 <= p_c_apps /\ 4 <= life_apps) ->
        ~ (25 <= p_c_apps /\ 3 <= life_apps) ->
        ~ (20 <= p_c_apps /\ 2 <= life_apps) ->
        milestone_bonus p_c_apps life_apps = 0%float)
    /\ (milestone_bonus p_c_apps life_apps = 0%float
        \/ milestone_bonus p_c_apps life_apps = 500%float
        \/ milestone_bonus p_c_apps life_apps = 750%float
        \/ milestone_bonus p_c_apps life_apps = 1000%float)
    /\ milestone_bonus 32 4 = 1000%float.
Proof.
  intros p l. unfold milestone_bonus.
  pose proof (milestone_rule_iff 30 4 p l) as H1.
  pose proof (milestone_rule_iff 25 3 p l) as H2.
  pose proof (milestone_rule_iff 20 2 p l) as H3.
  destruct ((p >=? 30) && (l >=? 4)), ((p >=? 25) && (l >=? 3)),
    ((p >=? 20) && (l >=? 2));
    (split; [|split; [|split; [|split; [|split]]]]);
    try reflexivity; auto; intros; try reflexivity;
    exfalso; intuition discriminate.
Qed.

(** ** No sales *)

(** C7. Without sales every figure of the breakdown is zero and the
    eligibility flag is cleared. *)
Theorem commission_calculator_no_sales :
  forall algo : sum_algorithm,
    commission_calculator algo [] = Returns empty_breakdown.
Proof. intros algo. vm_compute. reflexivity. Qed.

(** ** The two category groups *)

(** C9. The two groups are disjoint, together they are the categories of
    [CATEGORY_LABELS], each of the ten categories lies in exactly one group,
    and so does every sale with one of these categories. *)
Theorem categories_partitioned :
  P_AND_C_CATEGORIES ## FS_CATEGORIES
  /\ P_AND_C_CATEGORIES ∪ FS_CATEGORIES = list_to_set CATEGORY_LABELS.*1
  /\ CATEGORY_LABELS.*1
     = ["auto"; "homeowners"; "renters"; "plup"; "pap"; "other_fire";
        "life"; "health"; "bank"; "business"]
  /\ (forall c : string,
         c ∈ CATEGORY_LABELS.*1 ->
         (c ∈ P_AND_C_CATEGORIES /\ (c ∉ FS_CATEGORIES))
         \/ ((c ∉ P_AND_C_CATEGORIES) /\ c ∈ FS_CATEGORIES))
  /\ (forall sale : Sale,
         category sale ∈ CATEGORY_LABELS.*1 ->
         xorb (in_p_and_c sale) (in_fs sale) = true).
Proof.
  assert (Hper : Forall (fun c : string =>
                    xorb (bool_decide (c ∈ P_AND_C_CATEGORIES))
                         (bool_decide (c ∈ FS_CATEGORIES)) = true)
                   CATEGORY_LABELS.*1).
  { repeat constructor. }
  rewrite Forall_forall in Hper.
  split; [|split; [|split; [|split]]].
  - compute_done.
  - compute_done.
  - reflexivity.
  - intros c Hc. apply Hper in Hc.
    destruct (bool_decide_reflect (c ∈ P_AND_C_CATEGORIES)),
      (bool_decide_reflect (c ∈ FS_CATEGORIES));
      simpl in Hc; try discriminate; auto.
  - intros sale Hc. apply Hper in Hc. exact Hc.
Qed.

(** ** Categories outside the enumeration *)

Lemma filter_of_implied {A} (p q : A -> bool) (l : list A) :
  (forall x, p x = true -> q x = true) ->
  List.filter p (List.filter q l) = List.filter p l.
Proof.
  intros Himp. induction l as [|x l IH]; simpl; [reflexivity|].
  destruct (q x) eqn:Hq; simpl.
  - rewrite IH. reflexivity.
  - destruct (p x) eqn:Hp; [|exact IH].
    apply Himp in Hp. congruence.
Qed.

Lemma count_of_implied {A} (p q : A -> bool) (l : list A) :
  (forall x, p x = true -> q x = true) ->
  Py.count p (List.filter q l) = Py.count p l.
Proof.
  intros Himp. induction l as [|x l IH]; simpl; [reflexivity|].
  destruct (q x) eqn:Hq; simpl.
  - rewrite IH. reflexivity.
  - destruct (p x) eqn:Hp; [|exact IH].
    apply Himp in Hp. congruence.
Qed.

Lemma grouped_category_valid (c : string) :
  c ∈ P_AND_C_CATEGORIES ∪ FS_CATEGORIES -> valid_category c = true.
Proof.
  replace (P_AND_C_CATEGORIES ∪ FS_CATEGORIES)
    with (list_to_set (C := gset string) CATEGORY_LABELS.*1)
    by compute_done.
  rewrite elem_of_list_to_set. intros Hc.
  assert (Hall : Forall (fun c => valid_category c = true) CATEGORY_LABELS.*1)
    by (repeat constructor).
  rewrite Forall_forall in Hall. auto.
Qed.

Lemma in_p_and_c_valid (sale : Sale) :
  in_p_and_c sale = true -> has_valid_category sale = true.
Proof.
  unfold in_p_and_c. intros H%bool_decide_eq_true.
  apply grouped_category_valid, elem_of_union. auto.
Qed.

Lemma in_fs_valid (sale : Sale) :
  in_fs sale = true -> has_valid_category sale = true.
Proof.
  unfold in_fs. intros H%bool_decide_eq_true.
  apply grouped_category_valid, elem_of_union. auto.
Qed.

Lemma is_life_valid (sale : Sale) :
  is_life sale = true -> has_valid_category sale = true.
Proof.
  unfold is_life, has_valid_category. intros H%bool_decide_eq_true.
  rewrite H. reflexivity.
Qed.

(** C8, as the code has it. The calculator raises nothing: a sale whose
    category is outside the enumeration enters no aggregate, and the
    breakdown is the one of the remaining sales. *)
Theorem unknown_categories_are_skipped :
  forall (algo : sum_algorithm) (sales : list Sale),
    commission_calculator algo sales
    = commission_calculator algo (List.filter has_valid_category sales)
    /\ exists b : Breakdown, commission_calculator algo sales = Returns b.
Proof.
  intros algo sales. split; [|apply commission_calculator_returns].
  unfold commission_calculator.
  rewrite (filter_of_implied _ _ sales in_p_and_c_valid).
  rewrite (filter_of_implied _ _ sales in_fs_valid).
  rewrite (count_of_implied _ _ sales in_p_and_c_valid).
  rewrite (count_of_implied _ _ sales is_life_valid).
  reflexivity.
Qed.

(** C8, as claimed, fails: no list of sales makes the calculator raise, and
    a sale of category "boat" with a premium of 50000 leaves the breakdown
    of the empty month. *)
Lemma unknown_category_raises_nothing :
  (~ exists (algo : sum_algorithm) (sales : list Sale) (e : exn),
        Exists (fun sale => has_valid_category sale = false) sales
        /\ commission_calculator algo sales = Raises e)
  /\ has_valid_category boat_sale = false
  /\ commission_calculator LeftToRight [boat_sale] = Returns empty_breakdown
  /\ commission_calculator Compensated [boat_sale] = Returns empty_breakdown.
Proof.
  split.
  - intros (algo & sales & e & _ & Hraise).
    destruct (commission_calculator_returns algo sales) as (b & Hb).
    congruence.
  - repeat split; vm_compute; reflexivity.
Qed.

(** ** What the breakdown depends on *)

Lemma view_fixes_p_c_items (s1 s2 : list Sale) :
  engine_view <$> s1 = engine_view <$> s2 ->
  (fun sale => PyFloat (premium sale)) <$> List.filter in_p_and_c s1
  = (fun sale => PyFloat (premium sale)) <$> List.filter in_p_and_c s2.
Proof.
  revert s2. induction s1 as [|a s1 IH]; intros [|b s2] Heq;
    try discriminate; [reflexivity|].
  rewrite !fmap_cons in Heq. injection Heq as _ Hpc _ Hrest. simpl.
  destruct (in_p_and_c a), (in_p_and_c b); try discriminate; simpl.
  - injection Hpc as ->. f_equal. auto.
  - auto.
Qed.

Lemma view_fixes_fs_items (s1 s2 : list Sale) :
  engine_view <$> s1 = engine_view <$> s2 ->
  (fun sale => or_zero (fs_monthly_premium sale)) <$> List.filter in_fs s1
  = (fun sale => or_zero (fs_monthly_premium sale)) <$> List.filter in_fs s2.
Proof.
  revert s2. induction s1 as [|a s1 IH]; intros [|b s2] Heq;
    try discriminate; [reflexivity|].
  rewrite !fmap_cons in Heq. injection Heq as _ _ Hfs Hrest. simpl.
  destruct (in_fs a), (in_fs b); try discriminate; simpl.
  - injection Hfs as ->. f_equal. auto.
  - auto.
Qed.

(** A count that looks at the category only is a count over the views. *)
Lemma count_by_category (p : string -> bool) (sales : list Sale) :
  Py.count (fun sale => p (category sale)) sales
  = Py.count (fun v : string * option float * option (option float) =>
                p v.1.1) (engine_view <$> sales).
Proof.
  induction sales as [|a sales IH]; simpl; [reflexivity|].
  rewrite IH. reflexivity.
Qed.

Lemma count_Permutation {A} (p : A -> bool) (l l' : list A) :
  l ≡ₚ l' -> Py.count p l = Py.count p l'.
Proof.
  induction 1 as [|x l l' _ IH|x y l|l l' l'' _ IH1 _ IH2]; simpl.
  - reflexivity.
  - rewrite IH. reflexivity.
  - destruct (p x), (p y); lia.
  - congruence.
Qed.

Lemma count_by_category_Permutation (p : string -> bool)
  (s1 s2 : list Sale) :
  engine_view <$> s1 ≡ₚ engine_view <$> s2 ->
  Py.count (fun sale => p (category sale)) s1
  = Py.count (fun sale => p (category sale)) s2.
Proof.
  intros Hperm.
  rewrite (count_by_category p s1), (count_by_category p s2).
  apply count_Permutation, Hperm.
Qed.

Lemma view_multiset_fixes_counts (s1 s2 : list Sale) :
  engine_view <$> s1 ≡ₚ engine_view <$> s2 ->
  Py.count in_p_and_c s1 = Py.count in_p_and_c s2
  /\ Py.count is_life s1 = Py.count is_life s2.
Proof.
  intros Hperm. split.
  - exact (count_by_category_Permutation
             (fun c => bool_decide (c ∈ P_AND_C_CATEGORIES)) s1 s2 Hperm).
  - exact (count_by_category_Permutation
             (fun c => bool_decide (c = "life")) s1 s2 Hperm).
Qed.

(** C10, as the code has it. The breakdown is a function of the sequence,
    in the order of the query's rows, of what the engine reads of each sale:
    two lists with the same sequence of views (whatever their client names,
    dates, ids, the premium of their life and health sales, the monthly
    premium of their P&C sales) have the same breakdown.  When the views
    agree only as multisets, the two counts agree, and with them the rate,
    the life application bonus and the milestone bonus. *)
Theorem breakdown_fixed_by_view_sequence :
  forall (algo : sum_algorithm) (s1 s2 : list Sale),
    (engine_view <$> s1 = engine_view <$> s2 ->
     commission_calculator algo s1 = commission_calculator algo s2)
    /\ (engine_view <$> s1 ≡ₚ engine_view <$> s2 ->
        exists b1 b2 : Breakdown,
          commission_calculator algo s1 = Returns b1
          /\ commission_calculator algo s2 = Returns b2
          /\ p_c_apps b1 = p_c_apps b2
          /\ life_apps b1 = life_apps b2
          /\ commission_rate b1 = commission_rate b2
          /\ life_bonus_amount b1 = life_bonus_amount b2
          /\ milestone_bonus_amount b1 = milestone_bonus_amount b2).
Proof.
  intros algo s1 s2. split.
  - intros Hview. unfold commission_calculator.
    rewrite (view_fixes_p_c_items s1 s2 Hview).
    rewrite (view_fixes_fs_items s1 s2 Hview).
    destruct (view_multiset_fixes_counts s1 s2) as [-> ->];
      [rewrite Hview|]; reflexivity.
  - intros Hperm.
    destruct (view_multiset_fixes_counts s1 s2 Hperm) as [Hpc Hlife].
    unfold commission_calculator.
    repeat match goal with
      | |- context [breakdown_of ?a ?b ?c ?d] =>
          let r := fresh "b" in
          let Hr := fresh "Hb" in
          destruct (breakdown_of_returns a b c d)
            as (r & Hr & _ & ? & ? & _ & ? & _ & _ & _ & _ & ? & ?);
          rewrite Hr
      end.
    do 2 eexists. split; [reflexivity|]. split; [reflexivity|].
    repeat split; congruence.
Qed.

Lemma breakdown_fixed_by_view_sequence_witness :
  commission_calculator LeftToRight
    [ sale_in "auto" 7000 (Some 90%float); sale_in "life" 300 (Some 250%float) ]
  = commission_calculator LeftToRight
      [ {| id := 8; user_id := 1; client_name := "Grace";
           date_sold := (2024, 5, 2); date_effective := (2024, 5, 9);
           category := "auto"; premium := 7000;
           fs_monthly_premium := None |};
        {| id := 9; user_id := 1; client_name := "Alan";
           date_sold := (2024, 5, 30); date_effective := (2024, 7, 1);
           category := "life"; premium := 1250;
           fs_monthly_premium := Some 250%float |} ].
Proof.
  apply (proj1 (breakdown_fixed_by_view_sequence LeftToRight _ _)).
  reflexivity.
Defined.

(** C10, as claimed, fails on the order of the sales. Both lists below hold
    the same four P&C sales; read in one order the premiums add up to 2^53,
    in the other to 2^53 + 2, under either summation of the interpreter.
    With left-to-right summation three sales of 0.05, 0.05 and 11999.90 are
    eligible for commission in this order and not in the opposite one. *)
Lemma record_order_changes_breakdown :
  engine_view <$> wide_sales ≡ₚ engine_view <$> wide_sales_reversed
  /\ commission_calculator LeftToRight wide_sales
     <> commission_calculator LeftToRight wide_sales_reversed
  /\ commission_calculator Compensated wide_sales
     <> commission_calculator Compensated wide_sales_reversed
  /\ engine_view <$> cents_sales ≡ₚ engine_view <$> cents_sales_reversed
  /\ commission_eligible <$> commission_calculator LeftToRight cents_sales
     = Returns true
  /\ commission_eligible
       <$> commission_calculator LeftToRight cents_sales_reversed
     = Returns false.
Proof.
  assert (Hne : forall algo,
             commission_calculator algo wide_sales
             <> commission_calculator algo wide_sales_reversed).
  { intros algo Heq.
    apply (f_equal (fun r =>
             match r with
             | Returns b => (to_float (p_c_premium b) =? 0x1p53)%float
             | Raises _ => false
             end)) in Heq.
    destruct algo; vm_compute in Heq; discriminate. }
  split; [|split; [|split; [|split; [|split]]]]; try apply Hne.
  - apply fmap_Permutation, Permutation_rev.
  - apply fmap_Permutation, Permutation_rev.
  - vm_compute. reflexivity.
  - vm_compute. reflexivity.
Qed.

(** ** Integer arithmetic in binary64 *)

Lemma iter_pos_iter {A} (f : A -> A) (n : positive) (x : A) :
  @SpecFloat.iter_pos A f n x = Pos.iter f x n.
Proof.
  revert x. induction n as [n IH|n IH|]; intros x; simpl.
  - rewrite !IH. rewrite <- !Pos.iter_swap. reflexivity.
  - rewrite !IH. reflexivity.
  - reflexivity.
Qed.

Lemma shr_1_double (p : positive) :
  shr_1 {| shr_m := Zpos p~0; shr_r := false; shr_s := false |}
  = {| shr_m := Zpos p; shr_r := false; shr_s := false |}.
Proof. reflexivity. Qed.

Lemma iter_shr_1_exact (n p : positive) :
  Pos.iter shr_1 {| shr_m := Zpos (Pos.iter xO p n); shr_r := false; shr_s := false |} n
  = {| shr_m := Zpos p; shr_r := false; shr_s := false |}.
Proof.
  induction n as [|n IH] using Pos.peano_ind.
  - reflexivity.
  - rewrite Pos.iter_succ_r. rewrite Pos.iter_succ. rewrite shr_1_double. exact IH.
Qed.

Lemma digits_iter_xO (n p : positive) :
  Zpos (digits2_pos (Pos.iter xO p n)) = Zpos (digits2_pos p) + Zpos n.
Proof.
  induction n as [|n IH] using Pos.peano_ind.
  - simpl. lia.
  - rewrite Pos.iter_succ. simpl digits2_pos. rewrite Pos2Z.inj_succ, IH. lia.
Qed.

Lemma digits_shl (p : positive) (n : Z) :
  0 <= n -> Zpos (digits2_pos (shl p n)) = Zpos (digits2_pos p) + n.
Proof.
  destruct n as [|k|k]; simpl; intros Hn; try lia.
  apply digits_iter_xO.
Qed.

Lemma shr_shl_exact (p : positive) (e n : Z) :
  0 <= n ->
  shr {| shr_m := Zpos (shl p n); shr_r := false; shr_s := false |} e n
  = ({| shr_m := Zpos p; shr_r := false; shr_s := false |}, e + n).
Proof.
  destruct n as [|k|k]; simpl; intros Hn; try lia.
  - f_equal. lia.
  - rewrite iter_pos_iter, iter_shr_1_exact. reflexivity.
Qed.

Lemma binary_round_aux_exact (sx : bool) (p : positive) (n e : Z) :
  0 <= n ->
  Zpos (digits2_pos p) = 53 ->
  -1074 <= e + n <= 971 ->
  binary_round_aux prec emax sx (Zpos (shl p n)) e loc_Exact
  = S754_finite sx p (e + n).
Proof.
  intros Hn Hp He.
  unfold binary_round_aux, shr_fexp.
  unfold Zdigits2. rewrite (digits_shl p n Hn), Hp.
  replace (fexp prec emax (53 + n + e) - e) with n
    by (unfold fexp, emin, prec, emax; lia).
  simpl shr_record_of_loc. rewrite (shr_shl_exact p e n Hn).
  simpl shr_m. simpl loc_of_shr_record. simpl round_nearest_even.
  cbv iota. rewrite Hp.
  replace (fexp prec emax (53 + (e + n)) - (e + n)) with 0
    by (unfold fexp, emin, prec, emax; lia).
  cbn [shr shr_m]. change (emax - prec) with 971.
  destruct (Z.leb_spec (e + n) 971); [reflexivity|lia].
Qed.

Lemma shl_spec (p : positive) (n : Z) :
  0 <= n -> Zpos (shl p n) = Zpos p * 2 ^ n.
Proof.
  destruct n as [|k|k]; simpl shl; intros Hn.
  - rewrite Z.pow_0_r. lia.
  - induction k as [|k IH] using Pos.peano_ind.
    + simpl. lia.
    + rewrite Pos.iter_succ.
      change (Zpos (Pos.iter xO p k)~0) with (2 * Zpos (Pos.iter xO p k)).
      rewrite IH, Pos2Z.inj_succ by lia.
      rewrite Z.pow_succ_r by lia. ring.
  - lia.
Qed.

Lemma digits_bounds (p : positive) :
  2 ^ (digits p - 1) <= Zpos p < 2 ^ digits p.
Proof.
  unfold digits. induction p as [p IH|p IH|]; simpl digits2_pos.
  - rewrite Pos2Z.inj_succ. change (Zpos p~1) with (2 * Zpos p + 1).
    replace (Z.succ (Zpos (digits2_pos p)) - 1)
      with (Z.succ (Zpos (digits2_pos p) - 1)) by lia.
    rewrite !Z.pow_succ_r by lia. lia.
  - rewrite Pos2Z.inj_succ. change (Zpos p~0) with (2 * Zpos p).
    replace (Z.succ (Zpos (digits2_pos p)) - 1)
      with (Z.succ (Zpos (digits2_pos p) - 1)) by lia.
    rewrite !Z.pow_succ_r by lia. lia.
  - simpl. lia.
Qed.

Lemma digits_pos (p : positive) : 1 <= digits p.
Proof. unfold digits. lia. Qed.

Lemma digits_le (p : positive) (k : Z) :
  0 <= k -> Zpos p < 2 ^ k -> digits p <= k.
Proof.
  intros Hk Hp. destruct (digits_bounds p) as [Hlo _].
  destruct (Z.le_gt_cases (digits p) k) as [|Hgt]; [assumption|].
  assert (2 ^ k <= 2 ^ (digits p - 1)) by (apply Z.pow_le_mono_r; lia).
  lia.
Qed.

Lemma digits_ge (p : positive) (k : Z) :
  2 ^ k <= Zpos p -> k + 1 <= digits p.
Proof.
  intros Hp. destruct (digits_bounds p) as [_ Hhi].
  pose proof (digits_pos p).
  destruct (Z.le_gt_cases (k + 1) (digits p)) as [|Hgt]; [assumption|].
  assert (2 ^ digits p <= 2 ^ k) by (apply Z.pow_le_mono_r; lia).
  lia.
Qed.

Lemma digits_canon_mantissa (q : positive) :
  digits q <= 53 -> digits (shl q (53 - digits q)) = 53.
Proof.
  intros Hq. unfold digits at 1. rewrite digits_shl by lia.
  fold (digits q). lia.
Qed.

Lemma canon_valid (q : positive) :
  digits q <= 53 -> valid_binary (canon q) = true.
Proof.
  intros Hq. pose proof (digits_pos q).
  unfold canon, SpecFloat.valid_binary, bounded, canonical_mantissa.
  fold (digits (shl q (53 - digits q))).
  rewrite digits_canon_mantissa by assumption.
  apply andb_true_intro. split.
  - apply Z.eqb_eq. unfold fexp, emin, prec, emax. lia.
  - apply Z.leb_le. unfold prec, emax. lia.
Qed.

(** A mantissa and an exponent that denote the integer [q] round to the
    canonical form of [q], with no rounding error. *)
Lemma binary_round_aux_canon (m q : positive) (e : Z) :
  digits q <= 53 ->
  e <= digits q - 53 ->
  Zpos m = Zpos q * 2 ^ (- e) ->
  binary_round_aux prec emax false (Zpos m) e loc_Exact = canon q.
Proof.
  intros Hq He Hm. pose proof (digits_pos q).
  assert (Hshape : m = shl (shl q (53 - digits q)) (digits q - 53 - e)).
  { apply Pos2Z.inj. rewrite !shl_spec by lia. rewrite Hm.
    rewrite <- Z.mul_assoc, <- Z.pow_add_r by lia.
    f_equal. f_equal. lia. }
  rewrite Hshape.
  rewrite binary_round_aux_exact.
  - unfold canon. f_equal. lia.
  - lia.
  - apply (digits_canon_mantissa q Hq).
  - lia.
Qed.

Lemma shl_align_le (m : positive) (e e' : Z) :
  e' <= e -> shl_align m e e' = (shl m (e - e'), e').
Proof.
  intros Hle. unfold shl_align, shl.
  destruct (e' - e) as [|k|k] eqn:Hd; try lia.
  - replace (e - e') with 0 by lia. f_equal. lia.
  - replace (e - e') with (Zpos k) by lia. reflexivity.
Qed.

Lemma normalize_canon (q : positive) :
  digits q <= 53 ->
  binary_normalize prec emax (Zpos q) 0 false = canon q.
Proof.
  intros Hq. pose proof (digits_pos q).
  unfold binary_normalize, binary_round. fold (digits q).
  replace (fexp prec emax (digits q + 0)) with (digits q - 53)
    by (unfold fexp, emin, prec, emax; lia).
  rewrite shl_align_le by lia.
  apply binary_round_aux_canon; try lia.
  rewrite shl_spec by lia.
  replace (0 - (digits q - 53)) with (- (digits q - 53)) by lia.
  reflexivity.
Qed.

Lemma digits_mono (a b : positive) :
  Zpos a <= Zpos b -> digits a <= digits b.
Proof.
  intros Hab. pose proof (digits_pos b).
  apply digits_le; [lia|]. destruct (digits_bounds b). lia.
Qed.

Lemma digits_mul_ge (a b : positive) :
  digits a + digits b - 1 <= digits (a * b).
Proof.
  pose proof (digits_pos a). pose proof (digits_pos b).
  destruct (digits_bounds a) as [Ha _], (digits_bounds b) as [Hb _].
  assert (Hprod : 2 ^ (digits a + digits b - 2) <= Zpos (a * b)).
  { replace (digits a + digits b - 2)
      with ((digits a - 1) + (digits b - 1)) by lia.
    rewrite Z.pow_add_r, Pos2Z.inj_mul by lia.
    apply Z.mul_le_mono_nonneg; try assumption;
      apply Z.pow_nonneg; lia. }
  apply digits_ge in Hprod. lia.
Qed.

Lemma SFmul_canon (a b : positive) :
  digits (a * b) <= 53 ->
  SFmul prec emax (canon a) (canon b) = canon (a * b).
Proof.
  intros Hab.
  pose proof (digits_pos a). pose proof (digits_pos b).
  pose proof (digits_mul_ge a b).
  assert (digits a <= digits (a * b)) by (apply digits_mono; nia).
  assert (digits b <= digits (a * b)) by (apply digits_mono; nia).
  unfold canon at 1 2. unfold SFmul. simpl xorb.
  apply binary_round_aux_canon; try lia.
  rewrite !Pos2Z.inj_mul, !shl_spec by lia.
  replace (- (digits a - 53 + (digits b - 53)))
    with ((53 - digits a) + (53 - digits b)) by lia.
  rewrite Z.pow_add_r by lia. ring.
Qed.

Lemma digits_add_ge (a b : positive) :
  digits a <= digits (a + b) /\ digits b <= digits (a + b).
Proof. split; apply digits_mono; lia. Qed.

Lemma SFadd_canon (a b : positive) :
  digits (a + b) <= 53 ->
  SFadd prec emax (canon a) (canon b) = canon (a + b).
Proof.
  intros Hab.
  pose proof (digits_pos a). pose proof (digits_pos b).
  destruct (digits_add_ge a b) as [Ha Hb].
  unfold canon at 1 2. unfold SFadd. cbv beta iota zeta delta [cond_Zopp].
  set (ez := Z.min (digits a - 53) (digits b - 53)).
  rewrite !shl_align_le by (unfold ez; lia). cbn [fst].
  rewrite <- Pos2Z.inj_add. unfold binary_normalize, binary_round.
  set (s := (shl (shl a (53 - digits a)) (digits a - 53 - ez)
             + shl (shl b (53 - digits b)) (digits b - 53 - ez))%positive).
  assert (Hs : Zpos s = Zpos (a + b) * 2 ^ (- ez)).
  { unfold s. rewrite Pos2Z.inj_add, !shl_spec by (unfold ez; lia).
    rewrite <- !Z.mul_assoc, <- !Z.pow_add_r by (unfold ez; lia).
    replace (53 - digits a + (digits a - 53 - ez)) with (- ez) by lia.
    replace (53 - digits b + (digits b - 53 - ez)) with (- ez) by lia.
    rewrite Pos2Z.inj_add. ring. }
  assert (Hds : digits s = digits (a + b) - ez).
  { assert (Hshape : s = shl (a + b) (- ez)).
    { apply Pos2Z.inj. rewrite shl_spec by (unfold ez; lia). exact Hs. }
    rewrite Hshape. unfold digits at 1.
    rewrite digits_shl by (unfold ez; lia). reflexivity. }
  fold (digits s). rewrite Hds.
  replace (fexp prec emax (digits (a + b) - ez + ez))
    with (digits (a + b) - 53)
    by (unfold fexp, emin, prec, emax; lia).
  unfold shl_align.
  destruct (digits (a + b) - 53 - ez) as [|k|k] eqn:Hk;
    try (unfold ez in Hk; lia);
    apply binary_round_aux_canon; try assumption; unfold ez; lia.
Qed.

Lemma float_of_int_canon (q : positive) :
  digits q <= 53 -> Prim2SF (float_of_int (Zpos q)) = canon q.
Proof.
  intros Hq. unfold float_of_int. rewrite normalize_canon by assumption.
  apply Prim2SF_SF2Prim, canon_valid, Hq.
Qed.

Lemma small_digits (q : positive) : Zpos q < 2 ^ 53 -> digits q <= 53.
Proof. intros Hq. apply digits_le; [lia|assumption]. Qed.

(** Sums and products of integers that stay below 2^53 are computed
    without rounding. *)
Lemma float_of_int_mul (a b : Z) :
  0 < a -> 0 < b -> a * b < 2 ^ 53 ->
  (float_of_int a * float_of_int b)%float = float_of_int (a * b).
Proof.
  intros Ha Hb Hab.
  destruct a as [|a|a], b as [|b|b]; try lia.
  apply Prim2SF_inj. rewrite mul_spec.
  assert (digits (a * b) <= 53) by (apply small_digits; lia).
  assert (digits a <= 53) by (apply small_digits; nia).
  assert (digits b <= 53) by (apply small_digits; nia).
  rewrite !float_of_int_canon by assumption.
  change (Zpos a * Zpos b) with (Zpos (a * b)).
  rewrite float_of_int_canon by assumption.
  apply SFmul_canon. assumption.
Qed.

Lemma float_of_int_add (a b : Z) :
  0 < a -> 0 < b -> a + b < 2 ^ 53 ->
  (float_of_int a + float_of_int b)%float = float_of_int (a + b).
Proof.
  intros Ha Hb Hab.
  destruct a as [|a|a], b as [|b|b]; try lia.
  apply Prim2SF_inj. rewrite add_spec.
  assert (digits (a + b) <= 53) by (apply small_digits; lia).
  assert (digits a <= 53) by (apply small_digits; lia).
  assert (digits b <= 53) by (apply small_digits; lia).
  rewrite !float_of_int_canon by assumption.
  change (Zpos a + Zpos b) with (Zpos (a + b)).
  rewrite float_of_int_canon by assumption.
  apply SFadd_canon. assumption.
Qed.

(** ** Life application bonus *)

Lemma int_value_float_of_int (z : Z) :
  0 < z < 2 ^ 53 -> int_value (float_of_int z) = Some z.
Proof.
  intros [Hpos Hbound]. destruct z as [|q|q]; try lia.
  assert (Hq : digits q <= 53) by (apply small_digits; assumption).
  pose proof (digits_pos q) as Hd.
  unfold int_value. rewrite float_of_int_canon by assumption.
  unfold canon.
  destruct (Z.leb_spec 0 (digits q - 53)) as [Hge|Hlt].
  - replace (digits q - 53) with 0 by lia.
    replace (53 - digits q) with 0 by lia.
    cbn [shl cond_Zopp]. f_equal. lia.
  - pose proof (shl_spec q (53 - digits q) ltac:(lia)) as Hshl.
    replace (- (digits q - 53)) with (53 - digits q) by lia.
    rewrite Hshl.
    assert (0 < 2 ^ (53 - digits q)) by (apply Z.pow_pos_nonneg; lia).
    rewrite Z.mod_mul by lia. cbn [Z.eqb cond_Zopp].
    rewrite Z.div_mul by lia. reflexivity.
Qed.

Lemma bonus_beyond_sixth (k : Z) :
  0 < k -> 500 + 150 * k < 2 ^ 53 ->
  (500 + float_of_int k * 150)%float = float_of_int (500 + 150 * k).
Proof.
  intros Hk Hbound.
  change 500%float with (float_of_int 500).
  change 150%float with (float_of_int 150).
  rewrite float_of_int_mul by lia.
  rewrite float_of_int_add by lia.
  f_equal. lia.
Qed.

(** C5. On the non-negative integers n with 500 + 150 (n - 6) below 2^53
    the life application bonus is 0 up to 5 applications, 500 at 6, and
    from 7 on the float that is exactly the integer 500 + 150 (n - 6): in
    that range the conversion of the count, the product by 150.0 and the
    sum with 500.0 round nothing. *)
Theorem life_app_bonus_schedule_below_2_53 (n : Z) :
  0 <= n -> 500 + 150 * (n - 6) < 2 ^ 53 ->
  (n <= 5 -> life_app_bonus n = 0%float)
  /\ (n = 6 -> life_app_bonus n = 500%float)
  /\ (6 < n ->
      life_app_bonus n = float_of_int (500 + 150 * (n - 6))
      /\ int_value (life_app_bonus n) = Some (500 + 150 * (n - 6))).
Proof.
  intros Hn Hbound. split; [|split].
  - intros Hlow. unfold life_app_bonus.
    destruct (Z.ltb_spec n 6); [reflexivity|lia].
  - intros ->. reflexivity.
  - intros Hhigh.
    assert (Hvalue : life_app_bonus n
                     = float_of_int (500 + 150 * (n - 6))).
    { unfold life_app_bonus.
      destruct (Z.ltb_spec n 6); [lia|].
      rewrite Z.gtb_ltb. destruct (Z.ltb_spec 6 n); [|lia].
      apply bonus_beyond_sixth; lia. }
    split; [exact Hvalue|].
    rewrite Hvalue. apply int_value_float_of_int. lia.
Qed.

Lemma life_app_bonus_schedule_below_2_53_witness :
  life_app_bonus 3 = 0%float
  /\ life_app_bonus 6 = 500%float
  /\ int_value (life_app_bonus 9) = Some 950.
Proof.
  split; [|split].
  - apply (proj1 (life_app_bonus_schedule_below_2_53 3
                    ltac:(lia) ltac:(vm_compute; reflexivity))).
    lia.
  - apply (proj1 (proj2 (life_app_bonus_schedule_below_2_53 6
                           ltac:(lia) ltac:(vm_compute; reflexivity)))).
    reflexivity.
  - apply (proj2 (proj2 (proj2 (life_app_bonus_schedule_below_2_53 9
                                  ltac:(lia) ltac:(vm_compute; reflexivity)))
                    ltac:(lia))).
Defined.

(** C5, as claimed for every non-negative n, fails: the bonus is a
    binary64 number, and with 120095990063217 applications 500 + 150 (n - 6)
    is 18014398509482150, which is not one (it lies halfway between two of
    them); the code returns 18014398509482152. *)
Lemma life_app_bonus_rounds_above_2_54 :
  (~ forall n : Z,
       0 <= n -> 6 < n ->
       int_value (life_app_bonus n) = Some (500 + 150 * (n - 6)))
  /\ 500 + 150 * (120095990063217 - 6) = 18014398509482150
  /\ int_value (life_app_bonus 120095990063217) = Some 18014398509482152.
Proof.
  assert (Hvalue : int_value (life_app_bonus 120095990063217)
                   = Some 18014398509482152)
    by (vm_compute; reflexivity).
  split; [|split; [vm_compute; reflexivity|exact Hvalue]].
  intros Hall.
  specialize (Hall 120095990063217
                ltac:(vm_compute; discriminate) ltac:(vm_compute; reflexivity)).
  rewrite Hvalue in Hall. vm_compute in Hall. discriminate Hall.
Qed.

(** * Beyond the claims *)

(** X1. From 7 applications on, as long as 500 + 150 (n - 6) stays below
    2^53, the bonus is exactly that integer: converting the count, the
    multiplication by 150.0 and the addition to 500.0 make no rounding
    error. *)
Theorem life_app_bonus_exact (n : Z) :
  6 < n -> 500 + 150 * (n - 6) < 2 ^ 53 ->
  life_app_bonus n = float_of_int (500 + 150 * (n - 6)).
Proof.
  intros Hn Hbound. unfold life_app_bonus.
  destruct (Z.ltb_spec n 6); [lia|].
  rewrite Z.gtb_ltb. destruct (Z.ltb_spec 6 n); [|lia].
  change 500%float with (float_of_int 500).
  change 150%float with (float_of_int 150).
  rewrite float_of_int_mul by lia.
  rewrite float_of_int_add by lia.
  f_equal. lia.
Qed.

Lemma life_app_bonus_exact_witness :
  life_app_bonus 10 = float_of_int (500 + 150 * (10 - 6)).
Proof. apply (life_app_bonus_exact 10); vm_compute; reflexivity. Defined.

Lemma float_of_int_add_nonneg (a b : Z) :
  0 <= a -> 0 <= b -> a + b < 2 ^ 53 ->
  (float_of_int a + float_of_int b)%float = float_of_int (a + b).
Proof.
  intros Ha Hb Hab.
  destruct (Z.eq_dec a 0) as [->|], (Z.eq_dec b 0) as [->|].
  - vm_compute. reflexivity.
  - destruct b as [|b|b]; try lia.
    apply Prim2SF_inj. rewrite add_spec.
    rewrite float_of_int_canon by (apply small_digits; lia).
    change (0 + Zpos b) with (Zpos b).
    rewrite float_of_int_canon by (apply small_digits; lia).
    reflexivity.
  - destruct a as [|a|a]; try lia.
    apply Prim2SF_inj. rewrite add_spec.
    rewrite float_of_int_canon by (apply small_digits; lia).
    replace (Zpos a + 0) with (Zpos a) by lia.
    rewrite float_of_int_canon by (apply small_digits; lia).
    reflexivity.
  - apply float_of_int_add; lia.
Qed.

(** ** The bonuses add up without rounding *)

Lemma fs_bonus_values (fs : num) :
  exists z : Z,
    fs_bonus fs = float_of_int z
    /\ (z = 0 \/ z = 200 \/ z = 400 \/ z = 600 \/ z = 800).
Proof.
  unfold fs_bonus.
  destruct (ge_int fs 500); [exists 800; split; [reflexivity|lia]|].
  destruct (ge_int fs 400); [exists 600; split; [reflexivity|lia]|].
  destruct (ge_int fs 300); [exists 400; split; [reflexivity|lia]|].
  destruct (ge_int fs 200); [exists 200; split; [reflexivity|lia]|].
  exists 0. split; [reflexivity|lia].
Qed.

Lemma milestone_bonus_values (p l : Z) :
  exists z : Z,
    milestone_bonus p l = float_of_int z
    /\ (z = 0 \/ z = 500 \/ z = 750 \/ z = 1000).
Proof.
  unfold milestone_bonus.
  destruct ((p >=? 30) && (l >=? 4));
    [exists 1000; split; [reflexivity|lia]|].
  destruct ((p >=? 25) && (l >=? 3));
    [exists 750; split; [reflexivity|lia]|].
  destruct ((p >=? 20) && (l >=? 2));
    [exists 500; split; [reflexivity|lia]|].
  exists 0. split; [reflexivity|lia].
Qed.

Lemma life_app_bonus_integer (n : Z) :
  500 + 150 * (n - 6) < 2 ^ 53 ->
  life_app_bonus n
  = float_of_int (if n <? 6 then 0 else 500 + 150 * (n - 6)).
Proof.
  intros Hn. destruct (Z.ltb_spec n 6) as [Hlt|Hge].
  - unfold life_app_bonus. destruct (Z.ltb_spec n 6); [reflexivity|lia].
  - destruct (Z.eq_dec n 6) as [->|Hne]; [reflexivity|].
    unfold life_app_bonus.
    destruct (Z.ltb_spec n 6); [lia|].
    rewrite Z.gtb_ltb. destruct (Z.ltb_spec 6 n); [|lia].
    apply bonus_beyond_sixth; lia.
Qed.

(** X2. Whatever the aggregates, as long as 3300 + 150 (life_apps - 6) is
    below 2^53 (the largest total bonus fits in 53 bits), each of the four
    bonuses is a whole number and the total bonus is exactly their sum:
    adding them in binary64 loses nothing. *)
Theorem total_bonus_exact (pcp : num) (pca la : Z) (fs : num) :
  3300 + 150 * (la - 6) < 2 ^ 53 ->
  exists (b : Breakdown) (tiered flat life milestone : Z),
    breakdown_of pcp pca la fs = Returns b
    /\ fs_monthly_bonus b = float_of_int tiered
    /\ fs_high_bonus b = float_of_int flat
    /\ life_bonus_amount b = float_of_int life
    /\ milestone_bonus_amount b = float_of_int milestone
    /\ total_bonus b = float_of_int (tiered + flat + life + milestone)
    /\ 0 <= tiered <= 800 /\ (flat = 0 \/ flat = 1000)
    /\ life = (if la <? 6 then 0 else 500 + 150 * (la - 6))
    /\ 0 <= milestone <= 1000.
Proof.
  intros Hla.
  destruct (fs_bonus_values fs) as (tiered & Htiered & Htv).
  destruct (milestone_bonus_values pca la) as (milestone & Hm & Hmv).
  assert (Hlife : life_app_bonus la
                  = float_of_int (if la <? 6 then 0
                                  else 500 + 150 * (la - 6)))
    by (apply life_app_bonus_integer; lia).
  set (life := if la <? 6 then 0 else 500 + 150 * (la - 6)) in *.
  assert (0 <= life) by (unfold life; destruct (Z.ltb_spec la 6); lia).
  assert (life + 2800 < 2 ^ 53)
    by (unfold life; destruct (Z.ltb_spec la 6); [reflexivity|lia]).
  set (flat := if gt_int fs 1000 then 1000 else 0).
  assert (Hflat : (if gt_int fs 1000 then 1000%float else 0%float)
                  = float_of_int flat)
    by (unfold flat; destruct (gt_int fs 1000); reflexivity).
  assert (flat = 0 \/ flat = 1000)
    by (unfold flat; destruct (gt_int fs 1000); lia).
  unfold breakdown_of. rewrite get_commission_rate_table.
  eexists. exists tiered, flat, life, milestone.
  split; [reflexivity|]. cbn [fs_monthly_bonus fs_high_bonus
    life_bonus_amount milestone_bonus_amount total_bonus].
  rewrite Htiered, Hflat, Hlife, Hm.
  rewrite !float_of_int_add_nonneg by lia.
  repeat split; try reflexivity; try assumption; lia.
Qed.

Lemma total_bonus_exact_witness :
  exists (b : Breakdown) (tiered flat life milestone : Z),
    breakdown_of (PyFloat 20000) 32 8 (PyFloat 1200) = Returns b
    /\ fs_monthly_bonus b = float_of_int tiered
    /\ fs_high_bonus b = float_of_int flat
    /\ life_bonus_amount b = float_of_int life
    /\ milestone_bonus_amount b = float_of_int milestone
    /\ total_bonus b = float_of_int (tiered + flat + life + milestone)
    /\ 0 <= tiered <= 800 /\ (flat = 0 \/ flat = 1000)
    /\ life = (if 8 <? 6 then 0 else 500 + 150 * (8 - 6))
    /\ 0 <= milestone <= 1000.
Proof.
  apply (total_bonus_exact (PyFloat 20000) 32 8 (PyFloat 1200)).
  vm_compute. reflexivity.
Defined.

(** ** Bounds of the rate, growth of the milestone bonus *)

(** X3. The rate is never negative and never above 0.12; it is 0 exactly
    without a P&C application, and at least 0.02 with one. *)
Theorem get_commission_rate_bounds (p_c_apps life_apps : Z) :
  exists r : float,
    get_commission_rate p_c_apps life_apps = Returns r
    /\ (0 <=? r)%float = true
    /\ (r <=? 0.12)%float = true
    /\ (p_c_apps <= 0 <-> r = 0%float)
    /\ (1 <= p_c_apps <-> (0.02 <=? r)%float = true).
Proof.
  rewrite get_commission_rate_table. eexists. split; [reflexivity|].
  unfold spec_commission_rate, pc_column_of.
  destruct (life_row_of life_apps);
    cases_on_comparisons;
    (split; [vm_compute; reflexivity|]);
    (split; [vm_compute; reflexivity|]);
    (split; split; intros Hx; try lia;
     try (vm_compute; reflexivity);
     try (exfalso;
          apply (f_equal (fun x => (x =? 0)%float)) in Hx;
          vm_compute in Hx; discriminate);
     try (vm_compute in Hx; discriminate)).
Qed.

(** X4. More applications never lower the milestone bonus. *)
Theorem milestone_bonus_monotone (p_c_apps p_c_apps' life_apps life_apps' : Z) :
  p_c_apps <= p_c_apps' ->
  life_apps <= life_apps' ->
  (milestone_bonus p_c_apps life_apps
   <=? milestone_bonus p_c_apps' life_apps')%float = true.
Proof.
  intros Hp Hl. unfold milestone_bonus.
  pose proof (milestone_rule_iff 30 4 p_c_apps life_apps).
  pose proof (milestone_rule_iff 25 3 p_c_apps life_apps).
  pose proof (milestone_rule_iff 20 2 p_c_apps life_apps).
  pose proof (milestone_rule_iff 30 4 p_c_apps' life_apps').
  pose proof (milestone_rule_iff 25 3 p_c_apps' life_apps').
  pose proof (milestone_rule_iff 20 2 p_c_apps' life_apps').
  destruct ((p_c_apps >=? 30) && (life_apps >=? 4)),
    ((p_c_apps >=? 25) && (life_apps >=? 3)),
    ((p_c_apps >=? 20) && (life_apps >=? 2)),
    ((p_c_apps' >=? 30) && (life_apps' >=? 4)),
    ((p_c_apps' >=? 25) && (life_apps' >=? 3)),
    ((p_c_apps' >=? 20) && (life_apps' >=? 2));
    try (vm_compute; reflexivity);
    exfalso;
    repeat match goal with
      | H : true = true <-> _ |- _ =>
          apply proj1 in H; specialize (H eq_refl)
      | H : false = true <-> _ |- _ => apply proj2 in H
      end;
    repeat match goal with
      | H : _ -> false = true |- _ =>
          assert (false = true) by (apply H; lia); discriminate
      end.
Qed.

Lemma milestone_bonus_monotone_witness :
  (milestone_bonus 24 2 <=? milestone_bonus 25 3)%float = true.
Proof. apply (milestone_bonus_monotone 24 25 2 3); lia. Defined.

(** ** A month without P&C sales *)

Lemma count_nonneg {A} (p : A -> bool) (l : list A) : 0 <= Py.count p l.
Proof.
  induction l as [|x l IH]; simpl; [lia|]. destruct (p x); lia.
Qed.

Lemma count_zero_filter {A} (p : A -> bool) (l : list A) :
  Py.count p l = 0 <-> List.filter p l = [].
Proof.
  induction l as [|x l IH]; simpl; [tauto|].
  pose proof (count_nonneg p l). destruct (p x).
  - split; [lia|discriminate].
  - exact IH.
Qed.

(** X5. Without a P&C sale in the list, whatever the life and health sales
    and whatever their premiums: the P&C premium is the int 0, the rate is
    0, the commission is 0, the eligibility flag is cleared and there is no
    milestone bonus; the compensation is the total bonus. *)
Theorem no_p_and_c_sale_no_commission
  (algo : sum_algorithm) (sales : list Sale) :
  Forall (fun sale => category sale ∉ P_AND_C_CATEGORIES) sales ->
  exists b : Breakdown,
    commission_calculator algo sales = Returns b
    /\ p_c_premium b = PyInt 0
    /\ p_c_apps b = 0
    /\ commission_rate b = 0%float
    /\ commission_amount b = 0%float
    /\ commission_eligible b = false
    /\ milestone_bonus_amount b = 0%float
    /\ total_compensation b = (0 + total_bonus b)%float.
Proof.
  intros Hnone.
  assert (Hfilter : List.filter in_p_and_c sales = []).
  { induction Hnone as [|sale sales Hsale _ IH]; [reflexivity|].
    simpl. unfold in_p_and_c at 1.
    rewrite bool_decide_eq_false_2 by assumption. exact IH. }
  pose proof (proj2 (count_zero_filter in_p_and_c sales) Hfilter) as Hcount.
  unfold commission_calculator. rewrite Hfilter, Hcount.
  unfold breakdown_of. rewrite get_commission_rate_table.
  eexists. split; [reflexivity|].
  repeat split; reflexivity.
Qed.

Lemma no_p_and_c_sale_no_commission_witness :
  exists b : Breakdown,
    commission_calculator LeftToRight
      [sale_in "life" 90000 (Some 450%float); sale_in "health" 30000 None]
    = Returns b
    /\ p_c_premium b = PyInt 0
    /\ p_c_apps b = 0
    /\ commission_rate b = 0%float
    /\ commission_amount b = 0%float
    /\ commission_eligible b = false
    /\ milestone_bonus_amount b = 0%float
    /\ total_compensation b = (0 + total_bonus b)%float.
Proof.
  apply (no_p_and_c_sale_no_commission LeftToRight).
  repeat constructor; compute_done.
Defined.

(** ** The month of the calculator *)

Lemma days_in_month_bounds (year month : Z) :
  28 <= days_in_month year month <= 31.
Proof.
  unfold days_in_month.
  destruct (month =? 2); [destruct (is_leap year); lia|].
  destruct ((month =? 4) || (month =? 6) || (month =? 9) || (month =? 11));
    lia.
Qed.

Lemma plus_one_month_first (year month : Z) :
  1 <= month <= 12 ->
  plus_one_month (year, month, 1)
  = if month =? 12
    then (if year <? 9999 then Some (year + 1, 1, 1) else None)
    else (if year <=? 9999 then Some (year, month + 1, 1) else None).
Proof.
  intros Hm. unfold plus_one_month.
  pose proof (days_in_month_bounds year (month + 1)).
  pose proof (days_in_month_bounds (year + 1) (month + 1 - 12)).
  rewrite (Z.gtb_ltb (month + 1)).
  destruct (Z.ltb_spec 12 (month + 1)), (Z.eqb_spec month 12); try lia;
    rewrite Z.gtb_ltb, Z.min_r by lia.
  - destruct (Z.ltb_spec 9999 (year + 1)), (Z.ltb_spec year 9999);
      try lia; [reflexivity|]. do 3 f_equal. lia.
  - destruct (Z.ltb_spec 9999 year), (Z.leb_spec year 9999);
      try lia; reflexivity.
Qed.

Lemma month_window_cases (year month : Z) :
  1 <= year <= 9999 -> 1 <= month <= 12 ->
  (year = 9999 /\ month = 12 -> month_window year month = None)
  /\ (~ (year = 9999 /\ month = 12) ->
      month_window year month
      = Some ((year, month, 1), (year, month, days_in_month year month))).
Proof.
  intros Hy Hm. unfold month_window.
  rewrite plus_one_month_first by assumption.
  destruct (Z.eqb_spec month 12) as [->|Hne].
  - destruct (Z.ltb_spec year 9999).
    + split; [lia|]. intros _. cbn [mbind option_bind].
      unfold minus_one_day, days_in_month.
      change (1 >? 1) with false. change (12 =? 2) with false.
      change ((12 =? 4) || (12 =? 6) || (12 =? 9) || (12 =? 11))
        with false.
      cbv iota. replace (year + 1 - 1) with year by lia. reflexivity.
    + split; [reflexivity|lia].
  - destruct (Z.leb_spec year 9999); [|lia].
    split; [lia|]. intros _. cbn [mbind option_bind].
    unfold minus_one_day. rewrite !Z.gtb_ltb.
    destruct (Z.ltb_spec 1 1); [lia|].
    destruct (Z.ltb_spec 1 (month + 1)); [|lia].
    replace (month + 1 - 1) with month by lia. reflexivity.
Qed.

(** X6. For a month of the years 1 to 9999 other than December 9999 the
    window runs from the first to the last day of that month (the 29th in
    a leap February, the 31st in December); for December 9999 computing it
    raises [ValueError]. *)
Theorem month_window_is_the_month (year month : Z) :
  1 <= year <= 9999 -> 1 <= month <= 12 ->
  (year = 9999 /\ month = 12 -> month_window year month = None)
  /\ (~ (year = 9999 /\ month = 12) ->
      month_window year month
      = Some ((year, month, 1), (year, month, days_in_month year month))).
Proof. exact (month_window_cases year month). Qed.

Lemma month_window_is_the_month_witness :
  month_window 9999 12 = None
  /\ month_window 2024 2 = Some ((2024, 2, 1), (2024, 2, 29))
  /\ month_window 2023 12 = Some ((2023, 12, 1), (2023, 12, 31)).
Proof.
  split; [|split].
  - apply (proj1 (month_window_is_the_month 9999 12 ltac:(lia) ltac:(lia))).
    lia.
  - apply (proj2 (month_window_is_the_month 2024 2 ltac:(lia) ltac:(lia))).
    lia.
  - apply (proj2 (month_window_is_the_month 2023 12 ltac:(lia) ltac:(lia))).
    lia.
Defined.

Lemma in_window_sold_in (current_user year month : Z)
  (w : (Z * Z * Z) * (Z * Z * Z)) (sale : Sale) :
  1 <= year <= 9999 -> 1 <= month <= 12 ->
  valid_date (date_sold sale) ->
  month_window year month = Some w ->
  in_window current_user w sale = sold_in current_user year month sale.
Proof.
  intros Hy Hm Hvalid Hw.
  destruct (month_window_cases year month Hy Hm) as [Hnone Hsome].
  assert (Hnot : ~ (year = 9999 /\ month = 12)).
  { intros Hlast. rewrite (Hnone Hlast) in Hw. discriminate. }
  rewrite (Hsome Hnot) in Hw. injection Hw as <-.
  unfold in_window, sold_in, date_le, valid_date in *.
  destruct (date_sold sale) as [[y m] day].
  destruct Hvalid as (Hyr & Hmo & Hday).
  pose proof (days_in_month_bounds y m).
  destruct (Z.eqb_spec (user_id sale) current_user); [|reflexivity].
  cbn [andb].
  destruct (Z.eqb_spec y year) as [->|], (Z.eqb_spec m month) as [->|];
    cases_on_comparisons; try lia; try reflexivity.
Qed.

Lemma count_filter {A} (p q : A -> bool) (l : list A) :
  Py.count p (List.filter q l) = Py.count (fun x => q x && p x) l.
Proof.
  induction l as [|x l IH]; simpl; [reflexivity|].
  destruct (q x); simpl; rewrite IH; reflexivity.
Qed.

Lemma query_on_valid_dates (table rows : list Sale)
  (current_user year month : Z) (w : (Z * Z * Z) * (Z * Z * Z)) :
  1 <= year <= 9999 -> 1 <= month <= 12 ->
  Forall (fun sale => valid_date (date_sold sale)) table ->
  month_window year month = Some w ->
  query_returns table (in_window current_user w) rows ->
  rows ≡ₚ List.filter (sold_in current_user year month) table.
Proof.
  intros Hy Hm Hvalid Hw Hrows. unfold query_returns in Hrows.
  rewrite Hrows. rewrite Forall_forall in Hvalid.
  erewrite List.filter_ext_in; [reflexivity|].
  intros sale Hin. apply (in_window_sold_in _ _ _ _ _ Hy Hm); [|exact Hw].
  apply Hvalid, list_elem_of_In, Hin.
Qed.

(** X7. The calculator works on the sales of the current user sold in the
    target month, and on all of them: every row of its query is one, every
    such sale of the table is a row, and the two counts of the breakdown
    are the numbers of P&C sales and of life sales of that user and month
    in the table, in whatever order the query returns its rows. *)
Theorem calculator_reads_the_month
  (algo : sum_algorithm) (table rows : list Sale)
  (current_user year month : Z) (w : (Z * Z * Z) * (Z * Z * Z)) :
  1 <= year <= 9999 -> 1 <= month <= 12 ->
  Forall (fun sale => valid_date (date_sold sale)) table ->
  month_window year month = Some w ->
  query_returns table (in_window current_user w) rows ->
  Forall (fun sale => sold_in current_user year month sale = true) rows
  /\ (forall sale : Sale,
         sale ∈ table -> sold_in current_user year month sale = true ->
         sale ∈ rows)
  /\ exists b : Breakdown,
       commission_calculator algo rows = Returns b
       /\ p_c_apps b
          = Py.count (fun sale => sold_in current_user year month sale
                                  && in_p_and_c sale) table
       /\ life_apps b
          = Py.count (fun sale => sold_in current_user year month sale
                                  && is_life sale) table.
Proof.
  intros Hy Hm Hvalid Hw Hrows.
  pose proof (query_on_valid_dates _ _ _ _ _ _ Hy Hm Hvalid Hw Hrows)
    as Hperm.
  split; [|split].
  - rewrite Forall_forall. intros sale Hin. rewrite Hperm in Hin.
    apply list_elem_of_In, List.filter_In in Hin. apply Hin.
  - intros sale Hin Hsold. rewrite Hperm.
    apply list_elem_of_In, List.filter_In. split; [|exact Hsold].
    apply list_elem_of_In, Hin.
  - unfold commission_calculator.
    match goal with
    | |- context [breakdown_of ?a ?b ?c ?d] =>
        destruct (breakdown_of_returns a b c d)
          as (r & Hr & _ & Hpc & Hlife & _)
    end.
    exists r. rewrite Hr, Hpc, Hlife.
    rewrite !(count_Permutation _ _ _ Hperm), !count_filter.
    repeat split; reflexivity.
Qed.

Lemma calculator_reads_the_month_witness :
  Forall (fun sale => sold_in 1 2024 5 sale = true)
    [sale_in "auto" 700 None]
  /\ (forall sale : Sale,
         sale ∈ [ sale_in "auto" 700 None;
                  {| id := 2; user_id := 7; client_name := "Bob";
                     date_sold := (2024, 5, 20);
                     date_effective := (2024, 6, 1);
                     category := "life"; premium := 900;
                     fs_monthly_premium := None |} ] ->
         sold_in 1 2024 5 sale = true ->
         sale ∈ [sale_in "auto" 700 None])
  /\ exists b : Breakdown,
       commission_calculator LeftToRight [sale_in "auto" 700 None]
       = Returns b
       /\ p_c_apps b
          = Py.count (fun sale => sold_in 1 2024 5 sale && in_p_and_c sale)
              [ sale_in "auto" 700 None;
                {| id := 2; user_id := 7; client_name := "Bob";
                   date_sold := (2024, 5, 20);
                   date_effective := (2024, 6, 1);
                   category := "life"; premium := 900;
                   fs_monthly_premium := None |} ]
       /\ life_apps b
          = Py.count (fun sale => sold_in 1 2024 5 sale && is_life sale)
              [ sale_in "auto" 700 None;
                {| id := 2; user_id := 7; client_name := "Bob";
                   date_sold := (2024, 5, 20);
                   date_effective := (2024, 6, 1);
                   category := "life"; premium := 900;
                   fs_monthly_premium := None |} ].
Proof.
  apply (calculator_reads_the_month LeftToRight _ _ 1 2024 5
           ((2024, 5, 1), (2024, 5, 31))).
  - lia.
  - lia.
  - repeat constructor; vm_compute; intuition discriminate.
  - reflexivity.
  - exact (Permutation_refl [sale_in "auto" 700 None]).
Defined.

(** ** Entering a sale *)

Lemma grouped_exactly_once (sale : Sale) :
  has_valid_category sale = true ->
  xorb (in_p_and_c sale) (in_fs sale) = true.
Proof.
  unfold has_valid_category, valid_category, category_labels_map.
  intros Hcat%bool_decide_eq_true. destruct Hcat as [label Hlabel].
  apply elem_of_list_to_map_2 in Hlabel.
  assert (Hall : Forall (fun entry : string * string =>
                    xorb (bool_decide (entry.1 ∈ P_AND_C_CATEGORIES))
                         (bool_decide (entry.1 ∈ FS_CATEGORIES)) = true)
                   CATEGORY_LABELS)
    by (repeat constructor).
  rewrite Forall_forall in Hall. exact (Hall _ Hlabel).
Qed.

Section EnterSaleFacts.

Variable strip : string -> string.
Variable strptime_ymd : string -> option (Z * Z * Z).
Variable float_of_string : string -> option float.

(** [strptime] yields dates whose fields are in range. *)
Hypothesis strptime_valid :
  forall (s : string) (d : Z * Z * Z),
    strptime_ymd s = Some d -> valid_date d.


Lemma next_id_positive (table : list Sale) : 0 < next_id table.
Proof.
  unfold next_id. induction table as [|x table IH]; cbn; lia.
Qed.

Lemma next_id_app (table : list Sale) (sale : Sale) :
  id sale = next_id table -> next_id table < next_id (table ++ [sale]).
Proof.
  intros Hid. unfold next_id in *. rewrite fmap_app, foldr_app. cbn [fmap list_fmap foldr].
  assert (Hmono : forall (l : list Z) (a : Z),
             a <= foldr Z.max a l /\ foldr Z.max 0 l <= foldr Z.max a l \/ a < 0).
  { intros l a. destruct (Z.lt_ge_cases a 0); [right; assumption|left].
    induction l as [|y l [IH1 IH2]]; cbn; lia. }
  destruct (Hmono (id <$> table) (id sale `max` 0)) as [[H1 H2]|]; lia.
Qed.

(** A POST either leaves the table as it is, or is answered with
    [sale_recorded] and appends the row read from the form. *)
Lemma enter_sale_cases
  (current_user : Z) (form : SaleForm) (table : list Sale) :
  (exists response : result (string * (string * string)),
      response <> sale_recorded
      /\ enter_sale strip strptime_ymd float_of_string
           current_user form table
         = (response, table))
  \/ (exists sale : Sale,
         enter_sale strip strptime_ymd float_of_string
           current_user form table
         = (sale_recorded, table ++ [sale])
         /\ id sale = next_id table
         /\ user_id sale = current_user
         /\ client_name sale = strip (default "" (form_client_name form))
         /\ client_name sale <> ""
         /\ form_date_sold form ≫= strptime_ymd = Some (date_sold sale)
         /\ form_date_effective form ≫= strptime_ymd
            = Some (date_effective sale)
         /\ form_category form = Some (category sale)
         /\ valid_category (category sale) = true
         /\ form_premium form ≫= float_of_string = Some (premium sale)
         /\ is_nan (premium sale) = false
         /\ fs_monthly_premium sale
            = (if truthy (form_fs_monthly_premium form)
               then stored_real
                      (form_fs_monthly_premium form ≫= float_of_string)
               else None)).
Proof.
  unfold enter_sale.
  set (name := strip (default "" (form_client_name form))).
  destruct (nonempty name) eqn:Hname; cbn [negb orb];
    [|left; eexists; split; [|reflexivity]; discriminate].
  destruct (negb (truthy (form_date_sold form))
            || negb (truthy (form_date_effective form))
            || negb (truthy (form_premium form)));
    [left; eexists; split; [|reflexivity]; discriminate|].
  destruct (form_date_sold form ≫= strptime_ymd) as [sold|] eqn:Hsold;
    cbn [mbind option_bind];
    [|left; eexists; split; [|reflexivity]; discriminate].
  destruct (form_date_effective form ≫= strptime_ymd)
    as [effective|] eqn:Heff;
    cbn [mbind option_bind];
    [|left; eexists; split; [|reflexivity]; discriminate].
  destruct (form_premium form ≫= float_of_string) as [amount|] eqn:Hamount;
    cbn [mbind option_bind];
    [|left; eexists; split; [|reflexivity]; discriminate].
  destruct (truthy (form_fs_monthly_premium form)) eqn:Hfs.
  - destruct (form_fs_monthly_premium form ≫= float_of_string)
      as [monthly|] eqn:Hmonthly;
      cbn [fmap option_fmap option_map mbind option_bind];
      [|left; eexists; split; [|reflexivity]; discriminate].
    destruct (form_category form) as [cat|];
      [|left; eexists; split; [|reflexivity]; discriminate].
    destruct (valid_category cat) eqn:Hcat;
      [|left; eexists; split; [|reflexivity]; discriminate].
    destruct (is_nan amount) eqn:Hnan;
      [left; eexists; split; [|reflexivity]; discriminate|].
    right. eexists. split; [reflexivity|]. cbn.
    repeat split; try assumption; try reflexivity.
    unfold nonempty in Hname. intros Hempty.
    rewrite bool_decide_eq_true_2 in Hname by assumption. discriminate.
  - cbn [mbind option_bind].
    destruct (form_category form) as [cat|];
      [|left; eexists; split; [|reflexivity]; discriminate].
    destruct (valid_category cat) eqn:Hcat;
      [|left; eexists; split; [|reflexivity]; discriminate].
    destruct (is_nan amount) eqn:Hnan;
      [left; eexists; split; [|reflexivity]; discriminate|].
    right. eexists. split; [reflexivity|]. cbn.
    repeat split; try assumption; try reflexivity.
    unfold nonempty in Hname. intros Hempty.
    rewrite bool_decide_eq_true_2 in Hname by assumption. discriminate.
Qed.

Lemma enter_sale_keeps_well_entered
  (current_user : Z) (form : SaleForm) (table : list Sale) :
  well_entered table ->
  well_entered
    (snd (enter_sale strip strptime_ymd float_of_string
            current_user form table)).
Proof.
  intros [Hall Hids].
  destruct (enter_sale_cases current_user form table)
    as [(response & _ & ->)
       |(sale & -> & Hid & _ & _ & Hname & Hsold & Heff & _ & Hcat & _)];
    [split; assumption|].
  cbn [snd].
  pose proof (next_id_app table sale Hid) as Hgrow.
  pose proof (next_id_positive table) as Hpos.
  assert (Hdate : forall (field : option string) (d : Z * Z * Z),
             field ≫= strptime_ymd = Some d -> valid_date d).
  { intros [raw|] d Hd; [|discriminate]. exact (strptime_valid raw d Hd). }
  split.
  - apply Forall_app. split.
    + eapply Forall_impl; [exact Hall|].
      intros old (? & ? & ? & ? & ?). repeat split; try assumption; lia.
    + constructor; [|constructor].
      repeat split; try assumption;
        try (eapply Hdate; eassumption); lia.
  - rewrite fmap_app. apply NoDup_app. split; [assumption|].
    split; [|apply NoDup_singleton].
    intros key Hkey Hnew. apply list_elem_of_singleton in Hnew. subst key.
    apply list_elem_of_fmap in Hkey as (old & Heq & Hold).
    rewrite Forall_forall in Hall. specialize (Hall old Hold).
    lia.
Qed.

Lemma entered_well_entered (table : list Sale) :
  entered strip strptime_ymd float_of_string table -> well_entered table.
Proof.
  induction 1 as [|table current_user form _ IH].
  - split; constructor.
  - apply enter_sale_keeps_well_entered, IH.
Qed.



(** X9. On rows taken from a table built through the form the calculator
    skips nothing: each row is counted either as a P&C application or as a
    financial-services sale, never both and never neither. *)
Theorem calculator_counts_every_entered_sale
  (algo : sum_algorithm) (table rows : list Sale) :
  entered strip strptime_ymd float_of_string table ->
  rows ⊆ table ->
  exists b : Breakdown,
    commission_calculator algo rows = Returns b
    /\ p_c_apps b + Py.count in_fs rows = Z.of_nat (length rows)
    /\ 0 <= life_apps b <= Py.count in_fs rows
    /\ List.filter has_valid_category rows = rows.
Proof.
  intros Hentered Hsub.
  destruct (entered_well_entered table Hentered) as [Hall _].
  rewrite Forall_forall in Hall.
  assert (Hrows : Forall (fun sale => has_valid_category sale = true) rows).
  { rewrite Forall_forall. intros sale Hin. apply Hall, Hsub, Hin. }
  unfold commission_calculator.
  match goal with
  | |- context [breakdown_of ?a ?b ?c ?d] =>
      destruct (breakdown_of_returns a b c d)
        as (r & Hr & _ & Hpc & Hlife & _)
  end.
  exists r. rewrite Hr, Hpc, Hlife. split; [reflexivity|].
  clear Hr Hpc Hlife. induction Hrows as [|sale rows Hsale _ IH].
  - repeat split; cbn; lia.
  - destruct IH as (IH1 & IH2 & IH3);
      [intros x Hx; apply Hsub; right; exact Hx|].
    cbn [Py.count foldr length List.filter]. rewrite Hsale, IH3.
    fold (Py.count in_p_and_c rows) (Py.count in_fs rows)
      (Py.count is_life rows).
    pose proof (grouped_exactly_once sale Hsale) as Hgroup.
    assert (Hlife_fs : is_life sale = true -> in_fs sale = true).
    { unfold is_life, in_fs. intros Hl%bool_decide_eq_true.
      rewrite Hl. reflexivity. }
    destruct (in_p_and_c sale), (in_fs sale), (is_life sale);
      try discriminate; try (specialize (Hlife_fs eq_refl); discriminate);
      repeat split; try reflexivity; lia.
Qed.

End EnterSaleFacts.

Lemma sample_strptime_valid (s : string) (d : Z * Z * Z) :
  sample_strptime s = Some d -> valid_date d.
Proof.
  unfold sample_strptime. case_bool_decide; [|discriminate].
  intros [= <-]. vm_compute. intuition discriminate.
Qed.

Lemma sample_entered :
  entered (fun s => s) sample_strptime sample_float sample_table.
Proof. apply entered_post, entered_nil. Qed.


Lemma calculator_counts_every_entered_sale_witness :
  exists b : Breakdown,
    commission_calculator LeftToRight sample_table = Returns b
    /\ p_c_apps b + Py.count in_fs sample_table
       = Z.of_nat (length sample_table)
    /\ 0 <= life_apps b <= Py.count in_fs sample_table
    /\ List.filter has_valid_category sample_table = sample_table.
Proof.
  apply (calculator_counts_every_entered_sale (fun s => s) sample_strptime
           sample_float sample_strptime_valid LeftToRight sample_table
           sample_table sample_entered).
  intros sale Hin. exact Hin.
Defined.

(** ** The team chart *)

Lemma category_label_lookup (c : string) :
  (valid_category c = true ->
   exists label : string,
     getitem category_labels_map c = Returns label
     /\ (c, label) ∈ CATEGORY_LABELS)
  /\ (valid_category c = false ->
      getitem category_labels_map c = Raises (KeyError c)).
Proof.
  unfold valid_category, getitem.
  destruct (category_labels_map !! c) as [label|] eqn:Hget.
  - split; [|intros Hno].
    + intros _. exists label. split; [reflexivity|].
      apply elem_of_list_to_map_2, Hget.
    + apply bool_decide_eq_false in Hno. destruct Hno. eauto.
  - split; [intros Hyes|reflexivity].
    apply bool_decide_eq_true in Hyes. destruct Hyes as [? ?]. discriminate.
Qed.

Lemma team_totals_app (pre rest : list Sale)
  (ct : odict string) (mt : odict (Z * Z * Z)) :
  team_totals (pre ++ rest) ct mt
  = (totals ← team_totals pre ct mt;
     team_totals rest totals.1 totals.2).
Proof.
  revert ct mt. induction pre as [|sale pre IH]; intros ct mt.
  - reflexivity.
  - cbn [app team_totals].
    destruct (getitem category_labels_map (category sale)) as [label|e];
      [|reflexivity].
    cbn [mbind result_bind Py.bind]. apply IH.
Qed.

Lemma team_totals_returns (sales : list Sale)
  (ct : odict string) (mt : odict (Z * Z * Z)) :
  Forall (fun sale => has_valid_category sale = true) sales ->
  exists totals, team_totals sales ct mt = Returns totals.
Proof.
  intros Hvalid. revert ct mt.
  induction Hvalid as [|sale sales Hsale _ IH]; intros ct mt.
  - eexists. reflexivity.
  - cbn [team_totals].
    destruct (proj1 (category_label_lookup (category sale)) Hsale)
      as (label & -> & _).
    cbn [mbind result_bind Py.bind]. apply IH.
Qed.

(** X10. The chart is computed exactly when every row has a category of
    the enumeration; otherwise the view raises [KeyError] on the category
    of the first row that has none, whatever follows it. *)
Theorem team_sales_chart_key_error (sales : list Sale) :
  (Forall (fun sale => has_valid_category sale = true) sales ->
   exists chart, team_sales_chart sales = Returns chart)
  /\ (forall (pre post : list Sale) (bad : Sale),
         sales = pre ++ bad :: post ->
         Forall (fun sale => has_valid_category sale = true) pre ->
         has_valid_category bad = false ->
         team_sales_chart sales = Raises (KeyError (category bad))).
Proof.
  unfold team_sales_chart. split.
  - intros Hvalid.
    destruct (team_totals_returns sales initial_category_totals [] Hvalid)
      as ([ct mt] & ->).
    eexists. reflexivity.
  - intros pre post bad -> Hpre Hbad.
    rewrite team_totals_app.
    destruct (team_totals_returns pre initial_category_totals [] Hpre)
      as (totals & ->).
    cbn [mbind result_bind Py.bind team_totals].
    rewrite (proj2 (category_label_lookup (category bad)) Hbad).
    reflexivity.
Qed.

Lemma team_sales_chart_key_error_witness :
  (exists chart,
      team_sales_chart [sale_in "auto" 700 None; sale_in "life" 90 None]
      = Returns chart)
  /\ team_sales_chart [sale_in "auto" 700 None; boat_sale;
                       sale_in "kayak" 5 None]
     = Raises (KeyError "boat").
Proof.
  split.
  - apply (proj1 (team_sales_chart_key_error _)).
    repeat constructor.
  - apply (proj2 (team_sales_chart_key_error _)
             [sale_in "auto" 700 None] [sale_in "kayak" 5 None] boat_sale).
    + reflexivity.
    + repeat constructor.
    + reflexivity.
Defined.

Lemma sum_float_snoc (xs : list float) (f c x : float) :
  sum_float LeftToRight f c (PyFloat <$> (xs ++ [x]))
  = (sum_float LeftToRight f c (PyFloat <$> xs) + x)%float.
Proof.
  revert f. induction xs as [|y xs IH]; intros f; [reflexivity|].
  cbn. apply IH.
Qed.

Lemma sum_snoc (xs : list float) (x : float) :
  Py.sum LeftToRight (PyFloat <$> (xs ++ [x]))
  = PyFloat (to_float (Py.sum LeftToRight (PyFloat <$> xs)) + x).
Proof.
  destruct xs as [|y xs]; [reflexivity|].
  unfold Py.sum. cbn [app fmap list_fmap sum_int to_float].
  f_equal. apply (sum_float_snoc xs).
Qed.

Lemma category_total_snoc (c : string) (sales : list Sale) (sale : Sale) :
  category_total c (sales ++ [sale])
  = if bool_decide (category sale = c)
    then PyFloat (to_float (category_total c sales) + premium sale)
    else category_total c sales.
Proof.
  unfold category_total. rewrite List.filter_app. cbn [List.filter].
  destruct (bool_decide (category sale = c)).
  - rewrite fmap_app. cbn [fmap list_fmap].
    rewrite !(list_fmap_compose premium PyFloat).
    change [PyFloat (premium sale)] with (PyFloat <$> [premium sale]).
    rewrite <- fmap_app. apply sum_snoc.
  - rewrite app_nil_r. reflexivity.
Qed.

Lemma category_labels_one_to_one :
  forall e1 e2 : string * string,
    e1 ∈ CATEGORY_LABELS -> e2 ∈ CATEGORY_LABELS ->
    (e1.1 = e2.1 <-> e1.2 = e2.2).
Proof.
  assert (Hall : Forall (fun e1 : string * string =>
                    Forall (fun e2 : string * string =>
                      bool_decide (e1.1 = e2.1) = bool_decide (e1.2 = e2.2))
                      CATEGORY_LABELS) CATEGORY_LABELS)
    by (repeat constructor).
  intros e1 e2 H1 H2. rewrite Forall_forall in Hall.
  specialize (Hall e1 H1). rewrite Forall_forall in Hall.
  specialize (Hall e2 H2).
  split; intros Heq.
  - apply (bool_decide_eq_true_1 _). rewrite <- Hall.
    apply bool_decide_eq_true_2. exact Heq.
  - apply (bool_decide_eq_true_1 _). rewrite Hall.
    apply bool_decide_eq_true_2. exact Heq.
Qed.

(** The category totals once the rows [done] have been read. *)
Lemma category_totals_step (done : list Sale) (sale : Sale) (label : string) :
  (category sale, label) ∈ CATEGORY_LABELS ->
  odict_add label (premium sale)
    ((fun entry : string * string =>
        (entry.2, category_total entry.1 done)) <$> CATEGORY_LABELS)
  = (fun entry : string * string =>
       (entry.2, category_total entry.1 (done ++ [sale])))
      <$> CATEGORY_LABELS.
Proof.
  intros Hlabel. unfold odict_add. rewrite <- list_fmap_compose.
  apply list_fmap_ext. intros i entry Hentry.
  apply list_elem_of_lookup_2 in Hentry.
  pose proof (category_labels_one_to_one entry (category sale, label)
                Hentry Hlabel) as Hiff.
  cbn [fst snd compose] in *. rewrite category_total_snoc.
  destruct (decide (entry.2 = label)) as [Heq|Hne].
  - rewrite bool_decide_eq_true_2 by (symmetry; apply Hiff, Heq).
    reflexivity.
  - rewrite bool_decide_eq_false_2; [reflexivity|].
    intros Hc. apply Hne, Hiff. symmetry. exact Hc.
Qed.

Lemma team_totals_category_totals (rest done : list Sale)
  (mt : odict (Z * Z * Z)) (totals : odict string * odict (Z * Z * Z)) :
  team_totals rest
    ((fun entry : string * string =>
        (entry.2, category_total entry.1 done)) <$> CATEGORY_LABELS) mt
  = Returns totals ->
  totals.1
  = (fun entry : string * string =>
       (entry.2, category_total entry.1 (done ++ rest))) <$> CATEGORY_LABELS.
Proof.
  revert done mt. induction rest as [|sale rest IH]; intros done mt.
  - cbn [team_totals]. intros [= <-]. rewrite app_nil_r. reflexivity.
  - cbn [team_totals].
    destruct (valid_category (category sale)) eqn:Hvalid.
    + destruct (proj1 (category_label_lookup (category sale)) Hvalid)
        as (label & -> & Hlabel).
      cbn [mbind result_bind Py.bind].
      rewrite (category_totals_step done sale label Hlabel).
      intros Hrest. apply IH in Hrest.
      rewrite <- app_assoc in Hrest. exact Hrest.
    + rewrite (proj2 (category_label_lookup (category sale)) Hvalid).
      discriminate.
Qed.

(** X11. When the chart is computed its categories are the ten labels in
    the order of [CATEGORY_LABELS], whatever the rows, and the total of
    each is the sum, from left to right in the order of the rows, of the
    premiums of the sales of that category: the int 0 for a category
    without sale. *)
Theorem team_sales_chart_category_totals (sales : list Sale)
  (category_totals : odict string) (months : list (Z * Z * Z))
  (monthly_totals : odict (Z * Z * Z)) :
  team_sales_chart sales = Returns (category_totals, months, monthly_totals) ->
  category_totals
  = (fun entry : string * string =>
       (entry.2, category_total entry.1 sales)) <$> CATEGORY_LABELS
  /\ category_totals.*1 = CATEGORY_LABELS.*2.
Proof.
  unfold team_sales_chart.
  destruct (team_totals sales initial_category_totals []) as [[ct mt]|e]
    eqn:Htotals; [|discriminate].
  cbn [mbind result_bind Py.bind]. intros [= <- _ _].
  pose proof (team_totals_category_totals sales [] [] (ct, mt) Htotals)
    as Hct.
  cbn [fst app] in Hct. split; [exact Hct|].
  rewrite Hct, <- list_fmap_compose. reflexivity.
Qed.

Lemma team_sales_chart_category_totals_witness :
  team_sales_chart_sample.1.1
  = (fun entry : string * string =>
       (entry.2, category_total entry.1 cents_sales)) <$> CATEGORY_LABELS
  /\ team_sales_chart_sample.1.1.*1 = CATEGORY_LABELS.*2.
Proof.
  apply (team_sales_chart_category_totals cents_sales
           _ team_sales_chart_sample.1.2 team_sales_chart_sample.2).
  vm_compute. reflexivity.
Defined.

(** *** The months of the chart *)

Ltac date_order :=
  unfold date_lt, date_le;
  repeat match goal with d : (Z * Z * Z)%type |- _ => destruct d as [[? ?] ?] end;
  rewrite ?orb_true_iff, ?andb_true_iff, ?orb_false_iff, ?andb_false_iff,
    ?Z.ltb_lt, ?Z.leb_le, ?Z.eqb_eq, ?Z.ltb_ge, ?Z.leb_gt, ?Z.eqb_neq.

Lemma date_le_false (a b : Z * Z * Z) :
  date_le a b = false -> date_lt b a.
Proof.
  date_order. intros Hab. split; [lia|]. intros [= -> -> ->]. lia.
Qed.

Lemma date_lt_trans (a b c : Z * Z * Z) :
  date_lt a b -> date_lt b c -> date_lt a c.
Proof.
  date_order. intros [Hab Hne1] [Hbc Hne2]. split; [lia|].
  intros [= -> -> ->]. apply Hne1. f_equal; [f_equal|]; lia.
Qed.

Lemma date_le_lt (a b : Z * Z * Z) :
  date_le a b = true -> a <> b -> date_lt a b.
Proof. intros Hle Hne. split; assumption. Qed.

Lemma insert_date_Permutation (d : Z * Z * Z) (l : list (Z * Z * Z)) :
  insert_date d l ≡ₚ d :: l.
Proof.
  induction l as [|d' l IH]; cbn [insert_date]; [reflexivity|].
  destruct (date_le d d'); [reflexivity|].
  rewrite IH. apply Permutation_swap.
Qed.

Lemma insert_date_sorted (d : Z * Z * Z) (l : list (Z * Z * Z)) :
  d ∉ l ->
  StronglySorted date_lt l ->
  StronglySorted date_lt (insert_date d l).
Proof.
  intros Hfresh Hsorted.
  induction Hsorted as [|d' l Hsorted IH Hall]; cbn [insert_date].
  - repeat constructor.
  - apply not_elem_of_cons in Hfresh as [Hne Hfresh].
    destruct (date_le d d') eqn:Hle.
    + assert (Hlt : date_lt d d') by (apply date_le_lt; assumption).
      constructor; [constructor; assumption|].
      constructor; [exact Hlt|].
      eapply Forall_impl; [exact Hall|].
      intros x Hx. exact (date_lt_trans _ _ _ Hlt Hx).
    + constructor; [apply IH, Hfresh|].
      rewrite insert_date_Permutation.
      constructor; [apply date_le_false, Hle|exact Hall].
Qed.

Lemma sorted_dates_Permutation (l : list (Z * Z * Z)) :
  sorted_dates l ≡ₚ l.
Proof.
  induction l as [|d l IH]; [reflexivity|].
  cbn [sorted_dates foldr]. fold (sorted_dates l).
  rewrite insert_date_Permutation, IH. reflexivity.
Qed.

Lemma sorted_dates_sorted (l : list (Z * Z * Z)) :
  NoDup l -> StronglySorted date_lt (sorted_dates l).
Proof.
  induction 1 as [|d l Hfresh _ IH]; [constructor|].
  cbn [sorted_dates foldr]. fold (sorted_dates l).
  apply insert_date_sorted; [|exact IH].
  rewrite sorted_dates_Permutation. exact Hfresh.
Qed.

Lemma odict_add_keys {K} `{EqDecision K} (k : K) (x : float) (d : odict K) :
  (odict_add k x d).*1 = d.*1.
Proof.
  unfold odict_add. rewrite <- list_fmap_compose.
  apply list_fmap_ext. intros i entry _. cbn.
  destruct (decide (entry.1 = k)); reflexivity.
Qed.

Lemma odict_setdefault_keys {K} `{EqDecision K} (k : K) (d : odict K) :
  NoDup d.*1 ->
  NoDup (odict_setdefault k d).*1
  /\ forall k' : K, k' ∈ (odict_setdefault k d).*1 <-> k' ∈ d.*1 \/ k' = k.
Proof.
  intros Hnodup. unfold odict_setdefault.
  destruct (decide (k ∈ d.*1)) as [Hin|Hout].
  - split; [assumption|]. intros k'. split; [auto|].
    intros [?| ->]; assumption.
  - rewrite fmap_app. cbn [fmap list_fmap fst]. split.
    + apply NoDup_app. split; [assumption|].
      split; [|apply NoDup_singleton].
      intros k' Hk' ->%list_elem_of_singleton. contradiction.
    + intros k'. rewrite elem_of_app, list_elem_of_singleton. reflexivity.
Qed.

Lemma team_totals_months (rest : list Sale)
  (ct : odict string) (mt : odict (Z * Z * Z))
  (totals : odict string * odict (Z * Z * Z)) :
  team_totals rest ct mt = Returns totals ->
  NoDup mt.*1 ->
  NoDup totals.2.*1
  /\ forall d : Z * Z * Z,
       d ∈ totals.2.*1 <-> d ∈ mt.*1 \/ d ∈ month_keys rest.
Proof.
  revert ct mt. induction rest as [|sale rest IH]; intros ct mt.
  - cbn [team_totals]. intros [= <-] Hnodup. split; [assumption|].
    intros d. cbn. rewrite elem_of_nil. tauto.
  - cbn [team_totals].
    destruct (getitem category_labels_map (category sale)) as [label|e];
      [|discriminate].
    cbn [mbind result_bind Py.bind]. intros Hrest Hnodup.
    destruct (odict_setdefault_keys (first_of_month (date_sold sale)) mt
                Hnodup) as [Hnodup' Hkeys].
    apply IH in Hrest; [|rewrite odict_add_keys; exact Hnodup'].
    destruct Hrest as [Hfinal Hmem]. split; [exact Hfinal|].
    intros d. rewrite Hmem, odict_add_keys, Hkeys.
    unfold month_keys. rewrite fmap_cons, elem_of_cons. tauto.
Qed.

Lemma team_sales_chart_months_of (sales : list Sale)
  (category_totals : odict string) (months : list (Z * Z * Z))
  (monthly_totals : odict (Z * Z * Z)) :
  team_sales_chart sales = Returns (category_totals, months, monthly_totals) ->
  (forall d : Z * Z * Z, d ∈ months <-> d ∈ month_keys sales)
  /\ months ≡ₚ monthly_totals.*1.
Proof.
  unfold team_sales_chart.
  destruct (team_totals sales initial_category_totals []) as [[ct mt]|e]
    eqn:Htotals; [|discriminate].
  cbn [mbind result_bind Py.bind]. intros [= <- <- <-].
  destruct (team_totals_months sales _ _ _ Htotals) as [_ Hmem];
    [constructor|].
  cbn [snd] in *. split; [|apply sorted_dates_Permutation].
  intros d. rewrite sorted_dates_Permutation, Hmem.
  cbn. rewrite elem_of_nil. tauto.
Qed.

(** X12. When the chart is computed its months are in strictly ascending
    order, so none is listed twice; a month is listed exactly when a row
    was sold in it; each is the first day of its month and has one total. *)
Theorem team_sales_chart_months (sales : list Sale)
  (category_totals : odict string) (months : list (Z * Z * Z))
  (monthly_totals : odict (Z * Z * Z)) :
  team_sales_chart sales = Returns (category_totals, months, monthly_totals) ->
  StronglySorted date_lt months
  /\ (forall d : Z * Z * Z, d ∈ months <-> d ∈ month_keys sales)
  /\ months ≡ₚ monthly_totals.*1
  /\ Forall (fun d : Z * Z * Z => d.2 = 1) months.
Proof.
  unfold team_sales_chart.
  destruct (team_totals sales initial_category_totals []) as [[ct mt]|e]
    eqn:Htotals; [|discriminate].
  cbn [mbind result_bind Py.bind]. intros [= <- <- <-].
  destruct (team_totals_months sales _ _ _ Htotals) as [Hnodup Hmem];
    [constructor|].
  cbn [snd] in *.
  assert (Hmonths : forall d, d ∈ sorted_dates mt.*1 <-> d ∈ month_keys sales).
  { intros d. rewrite sorted_dates_Permutation, Hmem.
    cbn. rewrite elem_of_nil. tauto. }
  split; [apply sorted_dates_sorted, Hnodup|].
  split; [exact Hmonths|].
  split; [apply sorted_dates_Permutation|].
  rewrite Forall_forall. intros d Hd. apply Hmonths in Hd.
  unfold month_keys in Hd. apply list_elem_of_fmap in Hd as (sale & -> & _).
  unfold first_of_month. destruct (date_sold sale) as [[? ?] ?]. reflexivity.
Qed.

Lemma team_sales_chart_months_witness :
  StronglySorted date_lt team_sales_chart_sample.1.2
  /\ (forall d : Z * Z * Z,
         d ∈ team_sales_chart_sample.1.2 <-> d ∈ month_keys cents_sales)
  /\ team_sales_chart_sample.1.2 ≡ₚ team_sales_chart_sample.2.*1
  /\ Forall (fun d : Z * Z * Z => d.2 = 1) team_sales_chart_sample.1.2.
Proof.
  apply (team_sales_chart_months cents_sales team_sales_chart_sample.1.1).
  vm_compute. reflexivity.
Defined.

Lemma month_total_snoc (m : Z * Z * Z) (sales : list Sale) (sale : Sale) :
  month_total m (sales ++ [sale])
  = if bool_decide (first_of_month (date_sold sale) = m)
    then PyFloat (to_float (month_total m sales) + premium sale)
    else month_total m sales.
Proof.
  unfold month_total. rewrite List.filter_app. cbn [List.filter].
  destruct (bool_decide (first_of_month (date_sold sale) = m)).
  - rewrite fmap_app. cbn [fmap list_fmap].
    rewrite !(list_fmap_compose premium PyFloat).
    change [PyFloat (premium sale)] with (PyFloat <$> [premium sale]).
    rewrite <- fmap_app. apply sum_snoc.
  - rewrite app_nil_r. reflexivity.
Qed.

Lemma month_total_unsold (m : Z * Z * Z) (sales : list Sale) :
  m ∉ month_keys sales -> month_total m sales = PyInt 0.
Proof.
  intros Hout. unfold month_total.
  replace (List.filter _ sales) with (@nil Sale); [reflexivity|].
  symmetry. induction sales as [|sale sales IH]; [reflexivity|].
  unfold month_keys in Hout. rewrite fmap_cons in Hout.
  apply not_elem_of_cons in Hout as [Hne Hout].
  cbn [List.filter]. rewrite bool_decide_eq_false_2 by congruence.
  apply IH, Hout.
Qed.

Lemma monthly_totals_step (done : list Sale) (sale : Sale)
  (mt : odict (Z * Z * Z)) :
  monthly_totals_of done mt ->
  monthly_totals_of (done ++ [sale])
    (odict_add (first_of_month (date_sold sale)) (premium sale)
       (odict_setdefault (first_of_month (date_sold sale)) mt)).
Proof.
  intros [Hvalues Hkeys].
  set (k := first_of_month (date_sold sale)).
  assert (Hdefault : monthly_totals_of done (odict_setdefault k mt)).
  { unfold odict_setdefault.
    destruct (decide (k ∈ mt.*1)) as [Hin|Hout]; [split; assumption|].
    split.
    - apply Forall_app. split; [exact Hvalues|].
      constructor; [|constructor]. cbn [fst snd].
      symmetry. apply month_total_unsold. intros Hsold.
      apply Hout, Hkeys, Hsold.
    - intros m Hm. rewrite fmap_app, elem_of_app. left. apply Hkeys, Hm. }
  destruct Hdefault as [Hvalues' Hkeys']. split.
  - unfold odict_add. rewrite Forall_fmap.
    eapply Forall_impl; [exact Hvalues'|].
    intros [m v] Hv. cbn [fst snd compose] in *.
    rewrite month_total_snoc. fold k.
    destruct (decide (m = k)) as [->|Hne]; cbn [fst snd].
    + rewrite bool_decide_eq_true_2 by reflexivity. rewrite Hv. reflexivity.
    + rewrite bool_decide_eq_false_2 by congruence. exact Hv.
  - intros m. rewrite odict_add_keys. unfold month_keys.
    rewrite fmap_app, elem_of_app. cbn [fmap list_fmap].
    rewrite list_elem_of_singleton. fold k.
    intros [Hm| ->]; [apply Hkeys', Hm|].
    unfold odict_setdefault. destruct (decide (k ∈ mt.*1)); [assumption|].
    rewrite fmap_app, elem_of_app. right. apply list_elem_of_singleton.
    reflexivity.
Qed.

Lemma team_totals_monthly_totals (rest done : list Sale)
  (ct : odict string) (mt : odict (Z * Z * Z))
  (totals : odict string * odict (Z * Z * Z)) :
  team_totals rest ct mt = Returns totals ->
  monthly_totals_of done mt ->
  monthly_totals_of (done ++ rest) totals.2.
Proof.
  revert done ct mt. induction rest as [|sale rest IH]; intros done ct mt.
  - cbn [team_totals]. intros [= <-]. rewrite app_nil_r. trivial.
  - cbn [team_totals].
    destruct (getitem category_labels_map (category sale)) as [label|e];
      [|discriminate].
    cbn [mbind result_bind Py.bind]. intros Hrest Hdone.
    apply (IH (done ++ [sale])) in Hrest;
      [|apply monthly_totals_step, Hdone].
    rewrite <- app_assoc in Hrest. exact Hrest.
Qed.

(** X13. When the chart is computed, the total it holds for each of its
    months is the sum, from left to right in the order of the rows, of the
    premiums of the sales sold in that month, and a float. *)
Theorem team_sales_chart_monthly_totals (sales : list Sale)
  (category_totals : odict string) (months : list (Z * Z * Z))
  (monthly_totals : odict (Z * Z * Z)) :
  team_sales_chart sales = Returns (category_totals, months, monthly_totals) ->
  forall m : Z * Z * Z,
    m ∈ months ->
    (m, month_total m sales) ∈ monthly_totals
    /\ exists total : float, month_total m sales = PyFloat total.
Proof.
  intros Hchart m Hm.
  destruct (team_sales_chart_months_of sales _ _ _ Hchart) as [Hkeys Hperm].
  pose proof Hchart as Htotals. unfold team_sales_chart in Htotals.
  destruct (team_totals sales initial_category_totals []) as [[ct mt]|e]
    eqn:Hloop; [|discriminate].
  cbn [mbind result_bind Py.bind] in Htotals.
  injection Htotals as _ _ <-.
  destruct (team_totals_monthly_totals sales [] _ _ _ Hloop) as [Hvalues _].
  { split; [constructor|]. intros m'. cbn. rewrite elem_of_nil. tauto. }
  cbn [app snd] in Hvalues.
  assert (Hentry : (m, month_total m sales) ∈ mt).
  { rewrite Hperm in Hm. apply list_elem_of_fmap in Hm as ([m' v] & -> & Hin).
    rewrite Forall_forall in Hvalues. pose proof (Hvalues _ Hin) as Hv.
    cbn [fst snd] in *. rewrite <- Hv. exact Hin. }
  split; [exact Hentry|].
  apply Hkeys in Hm. unfold month_keys in Hm.
  apply list_elem_of_fmap in Hm as (sale & Hmonth & Hsale).
  apply list_elem_of_split in Hsale as (before & after & ->).
  clear -Hmonth. revert before. induction after as [|last after IH]
    using rev_ind; intros before.
  - rewrite month_total_snoc, bool_decide_eq_true_2 by (symmetry; exact Hmonth).
    eauto.
  - replace (before ++ sale :: after ++ [last])
      with ((before ++ sale :: after) ++ [last])
      by (rewrite <- app_assoc; reflexivity).
    rewrite month_total_snoc.
    destruct (bool_decide _); [eauto|apply IH].
Qed.

Lemma team_sales_chart_monthly_totals_witness :
  ((2024, 5, 1), month_total (2024, 5, 1) cents_sales)
    ∈ team_sales_chart_sample.2
  /\ exists total : float,
       month_total (2024, 5, 1) cents_sales = PyFloat total.
Proof.
  apply (team_sales_chart_monthly_totals cents_sales
           team_sales_chart_sample.1.1 team_sales_chart_sample.1.2).
  - vm_compute. reflexivity.
  - vm_compute. apply list_elem_of_here.
Defined.
